(** * resource_linode.go: the Linode instance resource of the Terraform provider

    A shallow embedding of [resource_linode.go] and the properties of its
    design document that concern it.

    - Go [int] is the 64-bit two's-complement integer: a [Z] with the
      wrap-around of [+], [-] and [*] written out ([wrap64]).
    - Go [string] is a byte string: a Rocq [string].
    - The [linodego] client is an interface to a remote system: a record of
      functions over an abstract remote state [R] ([Client]).  Every call
      is recorded, with its arguments and its answer, in a trace.
    - [*schema.ResourceData] is a keyed store ([ResourceData]).
    - The package-level catalog caches are fields of the state ([World]).
    - A Go function returning [(T, error)] is a computation in the monad
      [M] whose result is [Ok], [Err], [Panic] (a run-time panic) or
      [OutOfFuel] (the polling loops are unbounded in the source and take
      fuel here). *)

From Stdlib Require Import ZArith String Ascii List Lia DecimalString.
From Stdlib Require DecimalPos.
From stdpp Require Import base strings gmap list.

Open Scope string_scope.
Open Scope Z_scope.
Open Scope list_scope.

(** ** Machine integers *)

Definition wrap64 (z : Z) : Z := (z + 2 ^ 63) mod 2 ^ 64 - 2 ^ 63.
Definition add64 (a b : Z) : Z := wrap64 (a + b).
Definition sub64 (a b : Z) : Z := wrap64 (a - b).
Definition mul64 (a b : Z) : Z := wrap64 (a * b).
(** Go's [/] truncates toward zero. *)
Definition div64 (a b : Z) : Z := wrap64 (Z.quot a b).

Definition MinInt64 : Z := - 2 ^ 63.
Definition MaxInt64 : Z := 2 ^ 63 - 1.
Definition in_int64 (z : Z) : Prop := MinInt64 <= z <= MaxInt64.

(** ** Strings *)

(** [strings.HasPrefix(s, prefix)] *)
Definition HasPrefix (s prefix : string) : bool := String.prefix prefix s.

(** [fmt.Sprintf("%d", z)] and [strconv.Itoa] *)
Definition Itoa (z : Z) : string := NilZero.string_of_int (Z.to_int z).

Definition digit_of (c : ascii) : option Z :=
  let n := Z.of_N (N_of_ascii c) in
  if (48 <=? n) && (n <=? 57) then Some (n - 48) else None.

Fixpoint parse_digits (acc : Z) (s : string) : option Z :=
  match s with
  | EmptyString => Some acc
  | String c s' =>
      match digit_of c with
      | Some dg => parse_digits (acc * 10 + dg) s'
      | None => None
      end
  end.

(** [strconv.ParseInt(s, 10, 64)]: an optional sign, then at least one
    decimal digit and nothing else; a value outside of int64 is an error. *)
Definition ParseInt (s : string) : option Z :=
  let body (sign : Z) (t : string) : option Z :=
    match t with
    | EmptyString => None
    | _ =>
        match parse_digits 0 t with
        | Some n =>
            let v := sign * n in
            if (MinInt64 <=? v) && (v <=? MaxInt64) then Some v else None
        | None => None
        end
    end in
  match s with
  | EmptyString => None
  | String "+"%char t => body 1 t
  | String "-"%char t => body (-1) t
  | _ => body 1 s
  end.

(** [strings.EqualFold(t, "swap")]: equality under Unicode simple case
    folding.  The letters w, a and p fold only with their upper case; s
    folds with S and with U+017F (bytes C5 BF in UTF-8). *)
Definition fold_eq (lower upper c : ascii) : bool :=
  Ascii.eqb c lower || Ascii.eqb c upper.

Definition EqualFold_wap (t : string) : bool :=
  match t with
  | String w (String a (String p EmptyString)) =>
      fold_eq "w" "W" w && fold_eq "a" "A" a && fold_eq "p" "P" p
  | _ => false
  end.

Definition EqualFold_swap (t : string) : bool :=
  match t with
  | String c t' =>
      if fold_eq "s" "S" c then EqualFold_wap t'
      else
        match t' with
        | String c' t'' =>
            Ascii.eqb c (ascii_of_N 197) && Ascii.eqb c' (ascii_of_N 191)
            && EqualFold_wap t''
        | EmptyString => false
        end
  | EmptyString => false
  end.

(** *** The pattern [latestKernelStrip]

    [regexp.MustCompile("\\s*\\(.*\\)\\s*")], used only through
    [ReplaceAllString(label, "")].  [\s] is one of tab, newline, form feed,
    carriage return and space; [.] is any character but newline; all three
    stars are greedy, so a match that starts at a position takes the white
    space there, an opening parenthesis, everything up to the LAST closing
    parenthesis of that line, and the white space after it. *)

Definition is_space (c : ascii) : bool :=
  let n := N_of_ascii c in
  (n =? 9)%N || (n =? 10)%N || (n =? 12)%N || (n =? 13)%N || (n =? 32)%N.

Definition is_newline (c : ascii) : bool := (N_of_ascii c =? 10)%N.

Fixpoint skip_space (s : string) : string :=
  match s with
  | String c s' => if is_space c then skip_space s' else s
  | EmptyString => EmptyString
  end.

(** The text after [.*\)] read from [s]: what follows the last [)] that
    comes before the first newline of [s]. *)
Fixpoint after_last_rparen (s : string) : option string :=
  match s with
  | EmptyString => None
  | String c s' =>
      if is_newline c then None
      else
        match after_last_rparen s' with
        | Some rest => Some rest
        | None => if Ascii.eqb c ")" then Some s' else None
        end
  end.

(** A match of the pattern at the head of [s]: the text that follows it. *)
Definition match_at (s : string) : option string :=
  match skip_space s with
  | String c s' =>
      if Ascii.eqb c "(" then
        match after_last_rparen s' with
        | Some rest => Some (skip_space rest)
        | None => None
        end
      else None
  | EmptyString => None
  end.

(** [ReplaceAllString(s, "")]: the leftmost match is cut out, and the search
    goes on behind it.  A match is never empty, so the text gets shorter
    at every step and [length s] steps are enough. *)
Fixpoint strip_from (n : nat) (s : string) : string :=
  match n with
  | O => s
  | S n' =>
      match match_at s with
      | Some rest => strip_from n' rest
      | None =>
          match s with
          | EmptyString => EmptyString
          | String c s' => String c (strip_from n' s')
          end
      end
  end.

Definition latestKernelStrip_ReplaceAllString (s : string) : string :=
  strip_from (String.length s) s.

(** [strings.HasSuffix(s, suffix)] *)
Definition HasSuffix (s suffix : string) : bool :=
  (String.length suffix <=? String.length s)%nat
  && String.eqb
       (String.substring (String.length s - String.length suffix)
          (String.length suffix) s)
       suffix.

(** *** The pattern [grabId]

    [regexp.MustCompile("Base\\(([0-9]+)\\)")], used through [MatchString]
    and [FindStringSubmatch(label)[1]].  A match that starts at a position
    is the text [Base(], one decimal digit or more, and a closing
    parenthesis; the star being greedy and a digit no parenthesis, the
    digits of the group are all the digits that stand there. *)

Definition is_digit (c : ascii) : bool :=
  let n := N_of_ascii c in (48 <=? n)%N && (n <=? 57)%N.

(** The digits at the head of [s], and what follows them. *)
Fixpoint span_digits (s : string) : string * string :=
  match s with
  | String c s' =>
      if is_digit c then
        let (ds, rest) := span_digits s' in (String c ds, rest)
      else (EmptyString, s)
  | EmptyString => (EmptyString, EmptyString)
  end.

(** A match of the pattern at the head of [s]: its group. *)
Definition grabId_at (s : string) : option string :=
  match s with
  | String "B" (String "a" (String "s" (String "e" (String "(" t)))) =>
      match span_digits t with
      | (String d ds, String ")" _) => Some (String d ds)
      | _ => None
      end
  | _ => None
  end.

(** The group of the leftmost match, if the pattern matches at all. *)
Fixpoint grabId_FindStringSubmatch (s : string) : option string :=
  match grabId_at s with
  | Some group => Some group
  | None =>
      match s with
      | String _ s' => grabId_FindStringSubmatch s'
      | EmptyString => None
      end
  end.

(** [boolToString] *)
Definition boolToString (val : bool) : string :=
  if val then "true" else "false".

(** ** The remote data model ([linodego]), with the fields the resource reads *)

Record Linode := {
  LinodeId : Z;
  Label : string;
  LpmDisplayGroup : string;
  DataCenterId : Z;
  PlanId : Z;
  Status : Z;
  TotalHD : Z }.

Record Disk := {
  DiskId : Z;
  DiskLabel : string;
  DiskType : string;
  Size : Z }.

Record LinodeConfig := {
  ConfigId : Z;
  ConfigLinodeId : Z;
  ConfigKernelId : Z;
  HelperDistro : bool;
  HelperNetwork : bool }.

(** [HostFinishDt.IsSet()] is all that is read of a job. *)
Record Job := {
  JobId : Z;
  HostFinishDt_IsSet : bool }.

Record Kernel := {
  KernelId : Z;
  KernelLabel : string }.

Record DataCenter := {
  DcDataCenterId : Z;
  Location : string }.

Record LinodePlan := {
  PlanPlanId : Z;
  RAM : Z;
  PlanDisk : Z }.

Record Distribution := {
  DistributionId : Z;
  DistributionLabel : string }.

Record Image := {
  ImageId : Z;
  ImageLabel : string }.

Record FullIPAddress := {
  IsPublic : Z;
  IPAddress : string }.

(** [LinodesListResponse]: the error payload and the instances. *)
Record LinodesListResponse := {
  Errors : list string;
  Linodes : list Linode }.

(** ** Values of the schema layer *)

Inductive Value :=
| VBool (b : bool)
| VInt (z : Z)
| VString (s : string).

#[global] Instance Value_eq_dec : EqDecision Value.
Proof. solve_decision. Defined.

(** ** Errors

    Every error of the source is a message: [fmt.Errorf(format, ...)]
    ([Errorf]), where the last operand is often the error that caused it,
    [... because %s] ([ErrorfBecause]), or an error value handed back by
    [linodego] or by [strconv].  The operands other than the cause are left
    out. *)

Inductive error :=
| ApiError (msg : string)
| ParseError (input : string)
| Errorf (format : string)
| ErrorfBecause (format : string) (cause : error).

(** The kinds of the design's error taxonomy.  The source has no error
    types; a kind is the kind of the message at the root of the chain of
    causes. *)
Inductive ErrorKind :=
| NotFoundError
| ConstraintError
| UnsupportedOperationError
| TimeoutError
| RemoteError
| InvariantViolationError.

Definition message_kinds : list (string * ErrorKind) :=
  [ ("Failed to find kernel id %d", NotFoundError);
    ("Failed to find kernel %s", NotFoundError);
    ("Failed to find region id %d", NotFoundError);
    ("Failed to find the region name %s", NotFoundError);
    ("Unable to locate the plan with RAM %d", NotFoundError);
    ("Unabled to find plan id %d", NotFoundError);
    ("Failed to find image %s", NotFoundError);
    ("Cannot resize linode %d because currentDisk(%d GB) is bigger than newDisk(%d GB)",
     ConstraintError);
    ("Can't deactivate private networking for linode %s",
     UnsupportedOperationError);
    ("Jobs for linode %d didn't complete in 5 minutes", TimeoutError);
    ("Jobs for linode %d didn't complete in %d minute(s)", TimeoutError);
    ("Failed to find the specified linode. The following errors occured: %s",
     RemoteError);
    ("An incorrect number of linodes (%d) was returned for id %s",
     InvariantViolationError);
    ("Linode %d has an incorrect number of configs %d, this plugin can only handle 1",
     InvariantViolationError) ].

Fixpoint assoc_kind (format : string) (l : list (string * ErrorKind))
  : option ErrorKind :=
  match l with
  | [] => None
  | (f, k) :: l' => if String.eqb f format then Some k else assoc_kind format l'
  end.

Fixpoint error_kind (e : error) : option ErrorKind :=
  match e with
  | ApiError _ => Some RemoteError
  | ParseError _ => None
  | Errorf format => assoc_kind format message_kinds
  | ErrorfBecause _ cause => error_kind cause
  end.

(** ** Results and the trace of effects *)

Inductive result (A : Type) :=
| Ok (a : A)
| Err (e : error)
| Panic (msg : string)
| OutOfFuel.

Arguments Ok {A} a.
Arguments Err {A} e.
Arguments Panic {A} msg.
Arguments OutOfFuel {A}.

(** What a call of the client hands back: [(resp, err)] with [err != nil],
    or the response. *)
Definition answer (A : Type) : Type := (error + A)%type.

(** One event per call of the [linodego] client, with the arguments in the
    order of the Go method and the answer; [EvSleep] is [time.Sleep]. *)
Inductive Event :=
| EvLinodeList (linodeId : Z) (r : answer LinodesListResponse)
| EvLinodeCreate (dataCenterId planId paymentTerm : Z) (r : answer Z)
| EvLinodeUpdate (linodeId : Z) (args : gmap string Value) (r : answer unit)
| EvLinodeResize (linodeId planId : Z) (r : answer unit)
| EvLinodeBoot (linodeId configId : Z) (r : answer unit)
| EvLinodeReboot (linodeId configId : Z) (r : answer unit)
| EvLinodeDelete (linodeId : Z) (skipChecks : bool) (r : answer unit)
| EvDiskList (linodeId diskId : Z) (r : answer (list Disk))
| EvDiskCreate (linodeId : Z) (diskType label : string) (size : Z)
    (args : gmap string string) (r : answer unit)
| EvDiskCreateFromDistribution (distributionId linodeId : Z) (label : string)
    (size : Z) (args : gmap string string) (r : answer unit)
| EvDiskCreateFromImage (imageId linodeId : Z) (label : string) (size : Z)
    (args : gmap string string) (r : answer unit)
| EvDiskResize (linodeId diskId size : Z) (r : answer unit)
| EvConfigList (linodeId configId : Z) (r : answer (list LinodeConfig))
| EvConfigCreate (linodeId kernelId : Z) (label : string)
    (args : gmap string string) (r : answer Z)
| EvConfigUpdate (configId linodeId kernelId : Z) (args : gmap string string)
    (r : answer unit)
| EvIpList (linodeId ipId : Z) (r : answer (list FullIPAddress))
| EvIpAddPrivate (linodeId : Z) (r : answer string)
| EvJobList (linodeId jobId : Z) (pendingOnly : bool) (r : answer (list Job))
| EvAvailKernels (r : answer (list Kernel))
| EvAvailDataCenters (r : answer (list DataCenter))
| EvAvailLinodePlans (r : answer (list LinodePlan))
| EvAvailDistributions (r : answer (list Distribution))
| EvImageList (r : answer (list Image))
| EvSleep (nanoseconds : Z).

(** The method an event is a call of. *)
Inductive Api :=
| LinodeList | LinodeCreate | LinodeUpdate | LinodeResize | LinodeBoot
| LinodeReboot | LinodeDelete | DiskList | DiskCreate
| DiskCreateFromDistribution | DiskCreateFromImage | DiskResize | ConfigList
| ConfigCreate | ConfigUpdate | IpList | IpAddPrivate | JobList
| AvailKernels | AvailDataCenters | AvailLinodePlans | AvailDistributions
| ImageList | Sleep.

#[global] Instance Api_eq_dec : EqDecision Api.
Proof. solve_decision. Defined.

Definition api_of (ev : Event) : Api :=
  match ev with
  | EvLinodeList _ _ => LinodeList
  | EvLinodeCreate _ _ _ _ => LinodeCreate
  | EvLinodeUpdate _ _ _ => LinodeUpdate
  | EvLinodeResize _ _ _ => LinodeResize
  | EvLinodeBoot _ _ _ => LinodeBoot
  | EvLinodeReboot _ _ _ => LinodeReboot
  | EvLinodeDelete _ _ _ => LinodeDelete
  | EvDiskList _ _ _ => DiskList
  | EvDiskCreate _ _ _ _ _ _ => DiskCreate
  | EvDiskCreateFromDistribution _ _ _ _ _ _ => DiskCreateFromDistribution
  | EvDiskCreateFromImage _ _ _ _ _ _ => DiskCreateFromImage
  | EvDiskResize _ _ _ _ => DiskResize
  | EvConfigList _ _ _ => ConfigList
  | EvConfigCreate _ _ _ _ _ => ConfigCreate
  | EvConfigUpdate _ _ _ _ _ => ConfigUpdate
  | EvIpList _ _ _ => IpList
  | EvIpAddPrivate _ _ => IpAddPrivate
  | EvJobList _ _ _ _ => JobList
  | EvAvailKernels _ => AvailKernels
  | EvAvailDataCenters _ => AvailDataCenters
  | EvAvailLinodePlans _ => AvailLinodePlans
  | EvAvailDistributions _ => AvailDistributions
  | EvImageList _ => ImageList
  | EvSleep _ => Sleep
  end.


(** ** The client

    [R] is the state of everything outside of the process: the remote system
    and the clock.  A method takes it to an answer and a next state.
    [Now] reads the clock in nanoseconds; [SleepFor d] lets [d] nanoseconds
    pass. *)
Record Client (R : Type) := {
  Linode_List : Z → R → answer LinodesListResponse * R;
  Linode_Create : Z → Z → Z → R → answer Z * R;
  Linode_Update : Z → gmap string Value → R → answer unit * R;
  Linode_Resize : Z → Z → R → answer unit * R;
  Linode_Boot : Z → Z → R → answer unit * R;
  Linode_Reboot : Z → Z → R → answer unit * R;
  Linode_Delete : Z → bool → R → answer unit * R;
  Disk_List : Z → Z → R → answer (list Disk) * R;
  Disk_Create : Z → string → string → Z → gmap string string → R → answer unit * R;
  Disk_CreateFromDistribution :
    Z → Z → string → Z → gmap string string → R → answer unit * R;
  Disk_CreateFromImage :
    Z → Z → string → Z → gmap string string → R → answer unit * R;
  Disk_Resize : Z → Z → Z → R → answer unit * R;
  Config_List : Z → Z → R → answer (list LinodeConfig) * R;
  Config_Create : Z → Z → string → gmap string string → R → answer Z * R;
  Config_Update : Z → Z → Z → gmap string string → R → answer unit * R;
  Ip_List : Z → Z → R → answer (list FullIPAddress) * R;
  Ip_AddPrivate : Z → R → answer string * R;
  Job_List : Z → Z → bool → R → answer (list Job) * R;
  Avail_Kernels : R → answer (list Kernel) * R;
  Avail_DataCenters : R → answer (list DataCenter) * R;
  Avail_LinodePlans : R → answer (list LinodePlan) * R;
  Avail_Distributions : R → answer (list Distribution) * R;
  Image_List : R → answer (list Image) * R;
  Now : R → Z;
  SleepFor : Z → R → R }.

Arguments Linode_List {R}. Arguments Linode_Create {R}.
Arguments Linode_Update {R}. Arguments Linode_Resize {R}.
Arguments Linode_Boot {R}. Arguments Linode_Reboot {R}.
Arguments Linode_Delete {R}. Arguments Disk_List {R}.
Arguments Disk_Create {R}. Arguments Disk_CreateFromDistribution {R}.
Arguments Disk_CreateFromImage {R}. Arguments Disk_Resize {R}.
Arguments Config_List {R}. Arguments Config_Create {R}.
Arguments Config_Update {R}. Arguments Ip_List {R}.
Arguments Ip_AddPrivate {R}. Arguments Job_List {R}.
Arguments Avail_Kernels {R}. Arguments Avail_DataCenters {R}.
Arguments Avail_LinodePlans {R}. Arguments Avail_Distributions {R}.
Arguments Image_List {R}. Arguments Now {R}. Arguments SleepFor {R}.

(** ** [*schema.ResourceData]

    [attrs] is what [d.Get] reads and [d.Set] writes; [prior] is the state
    before the operation, which [d.HasChange] compares with [attrs]. *)
Record ResourceData := {
  rd_id : string;
  attrs : gmap string Value;
  prior : gmap string Value;
  partial : bool;
  partial_keys : list string;
  conn_info : gmap string string }.

Definition rd_with_id (id : string) (d : ResourceData) : ResourceData :=
  {| rd_id := id; attrs := attrs d; prior := prior d; partial := partial d;
     partial_keys := partial_keys d; conn_info := conn_info d |}.

Definition rd_with_attrs (a : gmap string Value) (d : ResourceData)
  : ResourceData :=
  {| rd_id := rd_id d; attrs := a; prior := prior d; partial := partial d;
     partial_keys := partial_keys d; conn_info := conn_info d |}.

Definition rd_with_partial (b : bool) (d : ResourceData) : ResourceData :=
  {| rd_id := rd_id d; attrs := attrs d; prior := prior d; partial := b;
     partial_keys := partial_keys d; conn_info := conn_info d |}.

Definition rd_with_partial_keys (l : list string) (d : ResourceData)
  : ResourceData :=
  {| rd_id := rd_id d; attrs := attrs d; prior := prior d;
     partial := partial d; partial_keys := l; conn_info := conn_info d |}.

Definition rd_with_conn_info (c : gmap string string) (d : ResourceData)
  : ResourceData :=
  {| rd_id := rd_id d; attrs := attrs d; prior := prior d;
     partial := partial d; partial_keys := partial_keys d; conn_info := c |}.

(** [d.Get(key).(string)], [.(int)] and [.(bool)]: the schema gives every
    key a value of its type, the zero value when nothing was set. *)
Definition get_string (d : ResourceData) (key : string) : string :=
  match attrs d !! key with Some (VString s) => s | _ => "" end.

Definition get_int (d : ResourceData) (key : string) : Z :=
  match attrs d !! key with Some (VInt z) => z | _ => 0 end.

Definition get_bool (d : ResourceData) (key : string) : bool :=
  match attrs d !! key with Some (VBool b) => b | _ => false end.

(** [d.HasChange(key)] *)
Definition has_change (d : ResourceData) (key : string) : bool :=
  bool_decide (prior d !! key ≠ attrs d !! key).

(** ** The monad of a run

    A computation takes a state to a result and a state.  [Err] is Go's
    [return ..., err]; the state it leaves behind stays (calls were made, [d]
    was written). *)

Definition M (S A : Type) : Type := S → result A * S.

#[global] Instance M_ret {S} : MRet (M S) := λ A a s, (Ok a, s).

#[global] Instance M_bind {S} : MBind (M S) := λ A B k m s,
  match m s with
  | (Ok a, s') => k a s'
  | (Err e, s') => (Err e, s')
  | (Panic msg, s') => (Panic msg, s')
  | (OutOfFuel, s') => (OutOfFuel, s')
  end.

(** [return err] and [return fmt.Errorf(format)] *)
Definition fail {S A} (e : error) : M S A := λ s, (Err e, s).

Definition panic {S A} (msg : string) : M S A := λ s, (Panic msg, s).

Definition out_of_fuel {S A} : M S A := λ s, (OutOfFuel, s).

(** [x, err := m; if err != nil { return fmt.Errorf(format, ..., err) }] *)
Definition because {S A} (format : string) (m : M S A) : M S A :=
  λ s,
    match m s with
    | (Err e, s') => (Err (ErrorfBecause format e), s')
    | other => other
    end.

(** [x, err := m] or the bare statement [m], where [err] is never looked
    at: [x] is then the value the callee hands back next to its error,
    [dflt]. *)
Definition discard_err {S A} (dflt : A) (m : M S A) : M S A :=
  λ s,
    match m s with
    | (Err _, s') => (Ok dflt, s')
    | other => other
    end.

(** [time.Duration] constants, in nanoseconds. *)
Definition Second : Z := 1000000000.
Definition Minute : Z := 60 * Second.

(** [Time.Sub] saturates at the ends of [Duration]. *)
Definition saturate64 (z : Z) : Z := Z.max MinInt64 (Z.min MaxInt64 z).

(** [PREBUILT] and [CUSTOM_IMAGE] *)
Definition PREBUILT : Z := 0.
Definition CUSTOM_IMAGE : Z := 1.

(** ** The catalog loops

    The [for i := range ...] loops of the lookups, over the cached list. *)

(** The loop of [getKernelName]. *)
Fixpoint getKernelName_loop (k : list Kernel) (kernelId : Z) : option string :=
  match k with
  | [] => None
  | ki :: k' =>
      if KernelId ki =? kernelId then
        if HasPrefix (KernelLabel ki) "Latest"
        then Some (latestKernelStrip_ReplaceAllString (KernelLabel ki))
        else Some (KernelLabel ki)
      else getKernelName_loop k' kernelId
  end.

(** The loop of [getKernelID]. *)
Fixpoint getKernelID_loop (k : list Kernel) (kernelName : string) : option Z :=
  match k with
  | [] => None
  | ki :: k' =>
      if HasPrefix kernelName "Latest" then
        if HasPrefix (KernelLabel ki) kernelName then Some (KernelId ki)
        else getKernelID_loop k' kernelName
      else
        if String.eqb (KernelLabel ki) kernelName then Some (KernelId ki)
        else getKernelID_loop k' kernelName
  end.

(** The loop of [getRegionName]. *)
Fixpoint getRegionName_loop (r : list DataCenter) (regionId : Z)
  : option string :=
  match r with
  | [] => None
  | ri :: r' =>
      if DcDataCenterId ri =? regionId then Some (Location ri)
      else getRegionName_loop r' regionId
  end.

(** The loop of [getRegionID]. *)
Fixpoint getRegionID_loop (r : list DataCenter) (regionName : string)
  : option Z :=
  match r with
  | [] => None
  | ri :: r' =>
      if String.eqb (Location ri) regionName then Some (DcDataCenterId ri)
      else getRegionID_loop r' regionName
  end.

(** The loop of [getSizeId]. *)
Fixpoint getSizeId_loop (s : list LinodePlan) (size : Z) : option Z :=
  match s with
  | [] => None
  | si :: s' =>
      if RAM si =? size then Some (PlanPlanId si)
      else getSizeId_loop s' size
  end.

(** The loop of [getSize]. *)
Fixpoint getSize_loop (s : list LinodePlan) (sizeId : Z) : option Z :=
  match s with
  | [] => None
  | si :: s' =>
      if PlanPlanId si =? sizeId then Some (RAM si)
      else getSize_loop s' sizeId
  end.

(** The loop of [getPlanDiskSize]: the plan's disk in megabytes. *)
Fixpoint getPlanDiskSize_loop (s : list LinodePlan) (planID : Z) : option Z :=
  match s with
  | [] => None
  | si :: s' =>
      if PlanPlanId si =? planID then Some (mul64 (PlanDisk si) 1024)
      else getPlanDiskSize_loop s' planID
  end.

(** The loop of [getTotalDiskSize]. *)
Definition totalDiskSize (disks : list Disk) : Z :=
  fold_left (λ totalDiskSize dk, add64 totalDiskSize (Size dk)) disks 0.

(** The loop of [getBiggestDisk]: [(biggestDiskID, biggestDiskSize)]. *)
Definition biggestDisk (disks : list Disk) : Z * Z :=
  fold_left
    (λ (big : Z * Z) dk,
       if Size dk >? snd big then (DiskId dk, Size dk) else big)
    disks (0, 0).

(** The loop of [getIps]: [(publicIp, privateIp)]. *)
Definition splitIps (ips : list FullIPAddress) : string * string :=
  fold_left
    (λ (acc : string * string) ip,
       if IsPublic ip =? 1 then (IPAddress ip, snd acc)
       else (fst acc, IPAddress ip))
    ips ("", "").

(** The loops of [findImage]. *)
Fixpoint findImage_prebuilt (prebuilt : list Distribution) (imageName : string)
  : option Z :=
  match prebuilt with
  | [] => None
  | p :: prebuilt' =>
      if String.eqb (DistributionLabel p) imageName
      then Some (DistributionId p)
      else findImage_prebuilt prebuilt' imageName
  end.

Fixpoint findImage_custom (customImages : list Image) (imageName : string)
  : option Z :=
  match customImages with
  | [] => None
  | c :: customImages' =>
      if String.eqb (ImageLabel c) imageName then Some (ImageId c)
      else if String.eqb (Itoa (ImageId c)) imageName then Some (ImageId c)
      else findImage_custom customImages' imageName
  end.

(** The loop of [getImage] over the labels of the disks: the group of the
    pattern [grabId] in the first label that has one or, for a label that
    ends in " Disk" and has none, the label without these five bytes. *)
Fixpoint getImage_loop (disks : list string) : option string :=
  match disks with
  | [] => None
  | dk :: disks' =>
      match grabId_FindStringSubmatch dk with
      | Some group => Some group
      | None =>
          if HasSuffix dk " Disk"
          then Some (String.substring 0 (String.length dk - 5) dk)
          else getImage_loop disks'
      end
  end.

(** The loop of the job waiters: [complete]. *)
Definition jobs_complete (jobs : list Job) : bool :=
  fold_left
    (λ complete j, if negb (HostFinishDt_IsSet j) then false else complete)
    jobs true.

(** The loop of [resourceLinodeLinodeRead] over the disks: [swap_size]. *)
Definition swap_size_of (disks : list Disk) : Z :=
  fold_left
    (λ swap_size dk,
       if EqualFold_swap (DiskType dk) then Size dk else swap_size)
    disks 0.

(** The loop of [resourceLinodeLinodeCreate] over the disks:
    [(rootDisk, swapDisk)]. *)
Definition root_and_swap (disks : list Disk) : Z * Z :=
  fold_left
    (λ (rs : Z * Z) dk,
       if EqualFold_swap (DiskType dk) then (fst rs, DiskId dk)
       else (DiskId dk, snd rs))
    disks (0, 0).

(** The boot configuration arguments of [resourceLinodeLinodeCreate]. *)
Definition confArgs_of (d : ResourceData) (rootDisk swapDisk : Z)
  : gmap string string :=
  let confArgs : gmap string string := ∅ in
  let confArgs :=
    if get_bool d "manage_private_ip_automatically"
    then <["helper_network" := "true"]> confArgs
    else <["helper_network" := "false"]> confArgs in
  let confArgs :=
    if get_bool d "helper_distro"
    then <["helper_distro" := "true"]> confArgs
    else <["helper_distro" := "false"]> confArgs in
  let confArgs :=
    if get_int d "swap_size" >? 0
    then <["DiskList" := Itoa rootDisk +:+ "," +:+ Itoa swapDisk]> confArgs
    else <["DiskList" := Itoa rootDisk]> confArgs in
  <["RootDeviceNum" := "1"]> confArgs.

(** ** The state of a run *)

(** The world of a run: the remote system and the clock, the three
    package-level catalog caches ([nil] is [None]) and the trace. *)
Record World (R : Type) := {
  remote : R;
  kernelList : option (list Kernel);
  regionList : option (list DataCenter);
  sizeList : option (list LinodePlan);
  trace : list Event }.

Arguments remote {R}. Arguments kernelList {R}. Arguments regionList {R}.
Arguments sizeList {R}. Arguments trace {R}.

(** The state of an operation on a resource: the world and the resource data
    [d], which the operation updates in place. *)
Record State (R : Type) := {
  world : World R;
  data : ResourceData }.

Arguments world {R}. Arguments data {R}.

Section Provider.

Context {R : Type}.
Variable client : Client R.

Definition with_remote (r : R) (evs : list Event) (w : World R) : World R :=
  {| remote := r; kernelList := kernelList w; regionList := regionList w;
     sizeList := sizeList w; trace := trace w ++ evs |}.

Definition with_kernelList (k : list Kernel) (w : World R) : World R :=
  {| remote := remote w; kernelList := Some k; regionList := regionList w;
     sizeList := sizeList w; trace := trace w |}.

Definition with_regionList (l : list DataCenter) (w : World R) : World R :=
  {| remote := remote w; kernelList := kernelList w; regionList := Some l;
     sizeList := sizeList w; trace := trace w |}.

Definition with_sizeList (l : list LinodePlan) (w : World R) : World R :=
  {| remote := remote w; kernelList := kernelList w;
     regionList := regionList w; sizeList := Some l; trace := trace w |}.

(** A call of a client method: the answer is logged, and an error answer is
    the [err] of the Go call. *)
Definition remote_call {A} (method : R → answer A * R) (ev : answer A → Event)
  : M (World R) A :=
  λ w,
    let (a, r') := method (remote w) in
    (match a with inl e => Err e | inr x => Ok x end,
     with_remote r' [ev a] w).

(** Reading a package-level variable. *)
Definition load {A} (var : World R → A) : M (World R) A := λ w, (Ok (var w), w).

Definition store (upd : World R → World R) : M (World R) unit :=
  λ w, (Ok tt, upd w).

(** [time.Now()], [time.Since(start)] and [time.Sleep(d)] *)
Definition time_Now : M (World R) Z := load (λ w, Now client (remote w)).

Definition time_Since (start : Z) : M (World R) Z :=
  load (λ w, saturate64 (Now client (remote w) - start)).

Definition time_Sleep (d : Z) : M (World R) unit :=
  store (λ w, with_remote (SleepFor client d (remote w)) [EvSleep d] w).

(** A computation on the world, run inside of an operation on [d]. *)
Definition liftW {A} (m : M (World R) A) : M (State R) A :=
  λ st, let (r, w') := m (world st) in (r, {| world := w'; data := data st |}).

(** Reading and writing [d]. *)
Definition getd {A} (f : ResourceData → A) : M (State R) A :=
  λ st, (Ok (f (data st)), st).

Definition modd (f : ResourceData → ResourceData) : M (State R) unit :=
  λ st, (Ok tt, {| world := world st; data := f (data st) |}).

Definition d_Set (key : string) (v : Value) : M (State R) unit :=
  modd (λ d, rd_with_attrs (<[key := v]> (attrs d)) d).

Definition d_SetId (id : string) : M (State R) unit := modd (rd_with_id id).

Definition d_Partial (on : bool) : M (State R) unit :=
  modd (rd_with_partial on).

Definition d_SetPartial (key : string) : M (State R) unit :=
  modd (λ d, rd_with_partial_keys (partial_keys d ++ [key]) d).

Definition d_SetConnInfo (c : gmap string string) : M (State R) unit :=
  modd (rd_with_conn_info c).

(** *** The reference catalogs *)

(** [getKernelList] *)
Definition getKernelList : M (World R) unit :=
  kernels ← remote_call (Avail_Kernels client) EvAvailKernels;
  store (with_kernelList kernels).

(** [getKernelName] *)
Definition getKernelName (kernelId : Z) : M (World R) string :=
  cached ← load kernelList;
  (match cached with None => getKernelList | Some _ => mret tt end);;
  kernels ← load kernelList;
  match kernels with
  | None => panic "nil pointer dereference"
  | Some k =>
      match getKernelName_loop k kernelId with
      | Some name => mret name
      | None => fail (Errorf "Failed to find kernel id %d")
      end
  end.

(** [getKernelID] *)
Definition getKernelID (kernelName : string) : M (World R) Z :=
  cached ← load kernelList;
  (match cached with None => getKernelList | Some _ => mret tt end);;
  kernels ← load kernelList;
  match kernels with
  | None => panic "nil pointer dereference"
  | Some k =>
      match getKernelID_loop k kernelName with
      | Some id => mret id
      | None => fail (Errorf "Failed to find kernel %s")
      end
  end.

(** [getRegionList] *)
Definition getRegionList : M (World R) unit :=
  resp ← remote_call (Avail_DataCenters client) EvAvailDataCenters;
  store (with_regionList resp).

(** [getRegionName] *)
Definition getRegionName (regionId : Z) : M (World R) string :=
  cached ← load regionList;
  (match cached with None => getRegionList | Some _ => mret tt end);;
  regions ← load regionList;
  match regions with
  | None => panic "nil pointer dereference"
  | Some r =>
      match getRegionName_loop r regionId with
      | Some name => mret name
      | None => fail (Errorf "Failed to find region id %d")
      end
  end.

(** [getRegionID] *)
Definition getRegionID (regionName : string) : M (World R) Z :=
  cached ← load regionList;
  (match cached with None => getRegionList | Some _ => mret tt end);;
  regions ← load regionList;
  match regions with
  | None => panic "nil pointer dereference"
  | Some r =>
      match getRegionID_loop r regionName with
      | Some id => mret id
      | None => fail (Errorf "Failed to find the region name %s")
      end
  end.

(** [getSizeList] *)
Definition getSizeList : M (World R) unit :=
  resp ← remote_call (Avail_LinodePlans client) EvAvailLinodePlans;
  store (with_sizeList resp).

(** [getSizeId] *)
Definition getSizeId (size : Z) : M (World R) Z :=
  cached ← load sizeList;
  (match cached with None => getSizeList | Some _ => mret tt end);;
  sizes ← load sizeList;
  match sizes with
  | None => panic "nil pointer dereference"
  | Some s =>
      match getSizeId_loop s size with
      | Some id => mret id
      | None => fail (Errorf "Unable to locate the plan with RAM %d")
      end
  end.

(** [getSize] *)
Definition getSize (sizeId : Z) : M (World R) Z :=
  cached ← load sizeList;
  (match cached with None => getSizeList | Some _ => mret tt end);;
  sizes ← load sizeList;
  match sizes with
  | None => panic "nil pointer dereference"
  | Some s =>
      match getSize_loop s sizeId with
      | Some ram => mret ram
      | None => fail (Errorf "Unabled to find plan id %d")
      end
  end.

(** [getPlanDiskSize] *)
Definition getPlanDiskSize (planID : Z) : M (World R) Z :=
  cached ← load sizeList;
  (match cached with None => getSizeList | Some _ => mret tt end);;
  sizes ← load sizeList;
  match sizes with
  | None => panic "nil pointer dereference"
  | Some s =>
      match getPlanDiskSize_loop s planID with
      | Some mb => mret mb
      | None => fail (Errorf "Unabled to find plan id %d")
      end
  end.

(** *** Disks, addresses and images *)

(** [getTotalDiskSize] *)
Definition getTotalDiskSize (linodeID : Z) : M (World R) Z :=
  disks ← remote_call (Disk_List client linodeID (-1)) (EvDiskList linodeID (-1));
  mret (totalDiskSize disks).

(** [getBiggestDisk] *)
Definition getBiggestDisk (linodeID : Z) : M (World R) (Z * Z) :=
  disks ← remote_call (Disk_List client linodeID (-1)) (EvDiskList linodeID (-1));
  mret (biggestDisk disks).

(** [getIps] *)
Definition getIps (linodeId : Z) : M (World R) (string * string) :=
  ips ← remote_call (Ip_List client linodeId (-1)) (EvIpList linodeId (-1));
  mret (splitIps ips).

(** [getDisks]: the labels of the disks, when there are exactly two. *)
Definition getDisks (id : Z) : M (World R) (list string) :=
  resp ← remote_call (Disk_List client id (-1)) (EvDiskList id (-1));
  if negb (length resp =? 2)%nat then
    fail (Errorf "Found %d disks attached to linode %s. This plugin can only handle exactly 2.")
  else
    mret (fold_left (λ disks dk, disks ++ [DiskLabel dk]) resp []).

(** [getImage] *)
Definition getImage (id : Z) : M (World R) string :=
  disks ← getDisks id;
  match getImage_loop disks with
  | Some image => mret image
  | None => fail (Errorf "Unable to find the image based on the disk names")
  end.

(** [findImage]: [(imageType, imageId)] *)
Definition findImage (imageName : string) : M (World R) (Z * Z) :=
  prebuilt ← remote_call (Avail_Distributions client) EvAvailDistributions;
  match findImage_prebuilt prebuilt imageName with
  | Some id => mret (PREBUILT, id)
  | None =>
      customImages ← remote_call (Image_List client) EvImageList;
      match findImage_custom customImages imageName with
      | Some id => mret (CUSTOM_IMAGE, id)
      | None => fail (Errorf "Failed to find image %s")
      end
  end.

(** *** The job waiters

    The loops of [waitForJobsToComplete] and of
    [waitForJobsToCompleteWaitMinutes] are the same text up to the deadline
    and the message: [wait_loop].  The source loops for ever as long as
    neither exit is taken; [fuel] bounds the number of polls. *)
Fixpoint wait_loop (fuel : nat) (linodeId start deadline : Z) (timeout : error)
  : M (World R) unit :=
  match fuel with
  | O => out_of_fuel
  | S fuel' =>
      jobs ← remote_call (Job_List client linodeId (-1) false)
                         (EvJobList linodeId (-1) false);
      if jobs_complete jobs then mret tt
      else
        time_Sleep (1 * Second);;
        elapsed ← time_Since start;
        if elapsed >? deadline then fail timeout
        else wait_loop fuel' linodeId start deadline timeout
  end.

(** [waitForJobsToComplete] *)
Definition waitForJobsToComplete (fuel : nat) (linodeId : Z) : M (World R) unit :=
  start ← time_Now;
  wait_loop fuel linodeId start (5 * Minute)
    (Errorf "Jobs for linode %d didn't complete in 5 minutes").

(** [waitForJobsToCompleteWaitMinutes] *)
Definition waitForJobsToCompleteWaitMinutes (fuel : nat)
    (linodeId waitMinutes : Z) : M (World R) unit :=
  start ← time_Now;
  wait_loop fuel linodeId start (mul64 waitMinutes Minute)
    (Errorf "Jobs for linode %d didn't complete in %d minute(s)").

(** [deployImage] *)
Definition deployImage (fuel : nat) (linode : Linode) (imageName : string)
    (diskSize : Z) (key password : string) : M (World R) unit :=
  '(imageType, imageId) ← findImage imageName;
  let args : gmap string string :=
    <["rootPass" := password]> (<["rootSSHKey" := key]> ∅) in
  let diskLabel :=
    "Root(" +:+ Itoa (LinodeId linode) +:+ ")__Base(" +:+ Itoa imageId +:+ ")" in
  (if imageType =? PREBUILT then
     remote_call
       (Disk_CreateFromDistribution client imageId (LinodeId linode) diskLabel
          diskSize args)
       (EvDiskCreateFromDistribution imageId (LinodeId linode) diskLabel
          diskSize args)
   else if imageType =? CUSTOM_IMAGE then
     remote_call
       (Disk_CreateFromImage client imageId (LinodeId linode) diskLabel
          diskSize args)
       (EvDiskCreateFromImage imageId (LinodeId linode) diskLabel diskSize args)
   else panic "Invalid image type returned");;
  because "Image %d failed to thaw for linode %d because %s"
    (waitForJobsToComplete fuel (LinodeId linode)).

(** *** The reconciliation steps *)

(** [changeLinodeSettings] *)
Definition changeLinodeSettings (linode : Linode) : M (State R) unit :=
  d ← getd id;
  let updates : gmap string Value := ∅ in
  let updates :=
    if bool_decide (get_string d "group" ≠ LpmDisplayGroup linode)
    then <["lpm_displayGroup" := VString (get_string d "group")]> updates
    else updates in
  let updates :=
    if bool_decide (get_string d "name" ≠ Label linode)
    then <["Label" := VString (get_string d "name")]> updates
    else updates in
  (if (0 <? size updates)%nat then
     because "Failed to update the linode's group because %s"
       (liftW (remote_call (Linode_Update client (LinodeId linode) updates)
                 (EvLinodeUpdate (LinodeId linode) updates)))
   else mret tt);;
  d_SetPartial "group";;
  d_SetPartial "name".

(** [changeLinodeSize] *)
Definition changeLinodeSize (fuel : nat) (linode : Linode) : M (State R) unit :=
  size ← getd (λ d, get_int d "size");
  sizeId ← because "Failed to find a Plan with %d RAM because %s"
             (liftW (getSizeId size));
  let newPlanID := sizeId in
  currentDiskSize ←
    liftW (discard_err (-1) (getTotalDiskSize (LinodeId linode)));
  newDiskSize ← liftW (discard_err (-1) (getPlanDiskSize newPlanID));
  if currentDiskSize >? newDiskSize then
    fail (Errorf "Cannot resize linode %d because currentDisk(%d GB) is bigger than newDisk(%d GB)")
  else
    liftW (discard_err tt
             (remote_call (Linode_Resize client (LinodeId linode) newPlanID)
                (EvLinodeResize (LinodeId linode) newPlanID)));;
    let waitMinutes := mul64 (div64 (TotalHD linode) 1024) 3 in
    because "Failed to wait for linode %d resize because %s"
      (liftW (waitForJobsToCompleteWaitMinutes fuel (LinodeId linode)
                waitMinutes));;
    disk_expansion ← getd (λ d, get_bool d "disk_expansion");
    (if (disk_expansion : bool) then
       '(biggestDiskID, biggestDiskSize) ←
         liftW (getBiggestDisk (LinodeId linode));
       let expandedDiskSize :=
         sub64 newDiskSize (sub64 currentDiskSize biggestDiskSize) in
       liftW (discard_err tt
                (remote_call
                   (Disk_Resize client (LinodeId linode) biggestDiskID
                      expandedDiskSize)
                   (EvDiskResize (LinodeId linode) biggestDiskID
                      expandedDiskSize)));;
       because "Failed to wait for resize of Disk %d for Linode %d because %s"
         (liftW (waitForJobsToCompleteWaitMinutes fuel (LinodeId linode)
                   waitMinutes))
     else mret tt);;
    liftW (discard_err tt
             (remote_call (Linode_Boot client (LinodeId linode) 0)
                (EvLinodeBoot (LinodeId linode) 0)));;
    d_SetPartial "size".

(** [changeLinodeConfig] *)
Definition changeLinodeConfig (config : LinodeConfig) : M (State R) unit :=
  d ← getd id;
  let updates : gmap string string := ∅ in
  let updates :=
    if has_change d "helper_distro"
    then <["helper_distro" := boolToString (get_bool d "helper_distro")]> updates
    else updates in
  let updates :=
    if has_change d "manage_private_ip_automatically"
    then <["helper_network" :=
             boolToString (get_bool d "manage_private_ip_automatically")]>
           updates
    else updates in
  (if (0 <? size updates)%nat then
     because "Failed to update the linode's config because %s"
       (liftW (remote_call
                 (Config_Update client (ConfigId config) (ConfigLinodeId config)
                    (ConfigKernelId config) updates)
                 (EvConfigUpdate (ConfigId config) (ConfigLinodeId config)
                    (ConfigKernelId config) updates)))
   else mret tt);;
  d_SetPartial "helper_distro";;
  d_SetPartial "manage_private_ip_automatically".

(** *** The operations of the resource *)

(** [resourceLinodeLinodeRead] *)
Definition resourceLinodeLinodeRead : M (State R) unit :=
  d_id ← getd rd_id;
  match ParseInt d_id with
  | None =>
      fail (ErrorfBecause "Failed to parse %s as int because %s"
              (ParseError d_id))
  | Some id =>
      linodes ← because "Failed to find the specified linode because %s"
                  (liftW (remote_call (Linode_List client id) (EvLinodeList id)));
      if negb (length (Errors linodes) =? 0)%nat then
        fail (Errorf "Failed to find the specified linode. The following errors occured: %s")
      else
        match Linodes linodes with
        | [linode] =>
            '(public, private) ←
              because "Failed to get the ips for linode %s because %s"
                (liftW (getIps id));
            d_Set "ip_address" (VString public);;
            (if bool_decide (private ≠ "") then
               d_Set "private_networking" (VBool true);;
               d_Set "private_ip_address" (VString private)
             else d_Set "private_networking" (VBool false));;
            d_SetConnInfo (<["host" := public]> (<["type" := "ssh"]> ∅));;
            d_Set "name" (VString (Label linode));;
            d_Set "group" (VString (LpmDisplayGroup linode));;
            regionName ← liftW (getRegionName (DataCenterId linode));
            d_Set "region" (VString regionName);;
            size ← because "Failed to find the size for linode %s because %s"
                     (liftW (getSize (PlanId linode)));
            d_Set "size" (VInt size);;
            d_Set "status" (VInt (Status linode));;
            d_size ← getd (λ d, get_int d "size");
            sizeId ← liftW (getSizeId d_size);
            plan_storage ← liftW (getPlanDiskSize sizeId);
            d_Set "plan_storage" (VInt plan_storage);;
            plan_storage_utilized ← liftW (getTotalDiskSize (LinodeId linode));
            d_Set "plan_storage_utilized" (VInt plan_storage_utilized);;
            disk_expansion ← getd (λ d, get_bool d "disk_expansion");
            d_Set "disk_expansion" (VString (boolToString disk_expansion));;
            disks ← because "Failed to get the disks for the linode because %s"
                      (liftW (remote_call
                                (Disk_List client (LinodeId linode) (-1))
                                (EvDiskList (LinodeId linode) (-1))));
            d_Set "swap_size" (VInt (swap_size_of disks));;
            configs ←
              because "Failed to get the linode %s's (id %s) config because %s"
                (liftW (remote_call (Config_List client id (-1))
                          (EvConfigList id (-1))));
            match (configs : list LinodeConfig) with
            | [config] =>
                d_Set "helper_distro"
                  (VString (boolToString (HelperDistro config)));;
                d_Set "manage_private_ip_automatically"
                  (VString (boolToString (HelperDistro config)));;
                kernelName ←
                  because "Failed to find the kernel for linode %s because %s"
                    (liftW (getKernelName (ConfigKernelId config)));
                d_Set "kernel" (VString kernelName)
            | _ => mret tt
            end
        | _ => d_SetId ""
        end
  end.

(** [resourceLinodeLinodeCreate] *)
Definition resourceLinodeLinodeCreate (fuel : nat) : M (State R) unit :=
  d_Partial true;;
  region ← getd (λ d, get_string d "region");
  regionId ← because "Failed to locate region %s because %s"
               (liftW (getRegionID region));
  size ← getd (λ d, get_int d "size");
  sizeId ← because "Failed to find a size %s because %s"
             (liftW (getSizeId size));
  create ←
    because "Failed to create a linode in region %s of size %d because %s"
      (liftW (remote_call (Linode_Create client regionId sizeId 1)
                (EvLinodeCreate regionId sizeId 1)));
  d_SetId (Itoa create);;
  d_SetPartial "region";;
  d_SetPartial "size";;
  swap_size ← getd (λ d, get_int d "swap_size");
  (if swap_size >? 0 then
     because "Failed to create a swap drive because %s"
       (liftW (remote_call (Disk_Create client create "swap" "swap" swap_size ∅)
                 (EvDiskCreate create "swap" "swap" swap_size ∅)))
   else mret tt);;
  d_SetPartial "swap_size";;
  linodes ←
    because "Failed to load data about the newly created linode because %s"
      (liftW (remote_call (Linode_List client create) (EvLinodeList create)));
  match Linodes linodes with
  | [linode] =>
      changeLinodeSettings linode;;
      private_networking ← getd (λ d, get_bool d "private_networking");
      (if (private_networking : bool) then
         resp ←
           because "Failed to add a private ip address to linode %d because %s"
             (liftW (remote_call (Ip_AddPrivate client (LinodeId linode))
                       (EvIpAddPrivate (LinodeId linode))));
         d_Set "private_ip_address" (VString resp);;
         d_SetPartial "private_ip_address"
       else mret tt);;
      d_SetPartial "private_networking";;
      ssh_key ← getd (λ d, get_string d "ssh_key");
      password ← getd (λ d, get_string d "root_password");
      d_swap_size ← getd (λ d, get_int d "swap_size");
      let disk_size := sub64 (TotalHD linode) d_swap_size in
      image ← getd (λ d, get_string d "image");
      because "Failed to create disk for image %s because %s"
        (liftW (deployImage fuel linode image disk_size ssh_key password));;
      d_SetPartial "root_password";;
      d_SetPartial "ssh_key";;
      disks ←
        because "Failed to get the disks for the newly created linode because %s"
          (liftW (remote_call (Disk_List client (LinodeId linode) (-1))
                    (EvDiskList (LinodeId linode) (-1))));
      let '(rootDisk, swapDisk) := root_and_swap disks in
      kernel ← getd (λ d, get_string d "kernel");
      kernelId ← because "Failed to find kernel %s because %s"
                   (liftW (getKernelID kernel));
      d ← getd id;
      let confArgs := confArgs_of d rootDisk swapDisk in
      confID ←
        because "Failed to create config for linode %d because %s"
          (liftW (remote_call
                    (Config_Create client (LinodeId linode) kernelId
                       (get_string d "image") confArgs)
                    (EvConfigCreate (LinodeId linode) kernelId
                       (get_string d "image") confArgs)));
      d_SetPartial "image";;
      d_SetPartial "manage_private_ip_automatically";;
      d_SetPartial "helper_distro";;
      liftW (discard_err tt
               (remote_call (Linode_Boot client (LinodeId linode) confID)
                  (EvLinodeBoot (LinodeId linode) confID)));;
      d_Partial false;;
      because "Failed to wait for linode %d to boot because %s"
        (liftW (waitForJobsToComplete fuel (LinodeId linode)));;
      resourceLinodeLinodeRead
  | _ =>
      fail (Errorf "An incorrect number of linodes (%d) was returned for id %s")
  end.

(** [resourceLinodeLinodeUpdate] *)
Definition resourceLinodeLinodeUpdate (fuel : nat) : M (State R) unit :=
  d_Partial true;;
  d_id ← getd rd_id;
  match ParseInt d_id with
  | None =>
      fail (ErrorfBecause "Failed to parse linode id %s as an int because %s"
              (ParseError d_id))
  | Some id =>
      linodes ←
        because "Failed to fetch data about the current linode because %s"
          (liftW (remote_call (Linode_List client id) (EvLinodeList id)));
      match Linodes linodes with
      | [] => panic "index out of range"
      | linode :: _ =>
          name_or_group ←
            getd (λ d, has_change d "name" || has_change d "group");
          (if (name_or_group : bool) then changeLinodeSettings linode else mret tt);;
          size_changed ← getd (λ d, has_change d "size");
          (if (size_changed : bool) then
             changeLinodeSize fuel linode;;
             because "Failed while waiting for linode %s to finish resizing because %s"
               (liftW (waitForJobsToComplete fuel id))
           else mret tt);;
          configResp ←
            because "Failed to fetch the config for linode %d because %s"
              (liftW (remote_call (Config_List client id (-1))
                        (EvConfigList id (-1))));
          match (configResp : list LinodeConfig) with
          | [config] =>
              because "Failed to update Linode %d config because %s"
                (changeLinodeConfig config);;
              private_changed ← getd (λ d, has_change d "private_networking");
              (if (private_changed : bool) then
                 private_networking ←
                   getd (λ d, get_bool d "private_networking");
                 if negb (private_networking : bool) then
                   fail (Errorf "Can't deactivate private networking for linode %s")
                 else
                   because "Failed to activate private networking on linode %s because %s"
                     (liftW (remote_call (Ip_AddPrivate client id)
                               (EvIpAddPrivate id)));;
                   manage ←
                     getd (λ d, get_bool d "manage_private_ip_automatically");
                   if (manage : bool) then
                     because "Failed to reboot linode %s because %s"
                       (liftW (remote_call (Linode_Reboot client id 0)
                                 (EvLinodeReboot id 0)));;
                     because "Failed while waiting for linode %s to finish rebooting because %s"
                       (liftW (waitForJobsToComplete fuel id))
                   else mret tt
               else mret tt);;
              resourceLinodeLinodeRead
          | _ =>
              fail (Errorf "Linode %d has an incorrect number of configs %d, this plugin can only handle 1")
          end
      end
  end.

(** [resourceLinodeLinodeDelete] *)
Definition resourceLinodeLinodeDelete : M (State R) unit :=
  d_id ← getd rd_id;
  match ParseInt d_id with
  | None => fail (Errorf "Failed to parse linode id %d as int")
  | Some id =>
      because "Failed to delete linode %d because %s"
        (liftW (remote_call (Linode_Delete client id true)
                  (EvLinodeDelete id true)))
  end.

End Provider.

Arguments with_remote {R} r evs w.
Arguments load {R A} var.
Arguments store {R} upd.
Arguments remote_call {R A} method ev.
Arguments liftW {R A} m.
Arguments getd {R A} f.
Arguments modd {R} f.
Arguments d_Set {R} key v.
Arguments d_SetId {R} id.
Arguments d_Partial {R} on.
Arguments d_SetPartial {R} key.
Arguments d_SetConnInfo {R} c.

(** ** A remote system to run the operations against

    A control plane that answers every listing from fixed tables, accepts
    every change without acting on it, fails the methods named in
    [failing], and whose clock moves only while the process sleeps. *)
Module Demo.

Record Remote := {
  clock : Z;
  linodes : LinodesListResponse;
  disks : list Disk;
  configs : list LinodeConfig;
  jobs : list Job;
  ips : list FullIPAddress;
  kernels : list Kernel;
  datacenters : list DataCenter;
  plans : list LinodePlan;
  distributions : list Distribution;
  images : list Image;
  failing : list Api }.

Definition reply {A} (api : Api) (x : A) (r : Remote) : answer A * Remote :=
  (if bool_decide (api ∈ failing r) then inl (ApiError "remote failure")
   else inr x, r).

Definition sleep (d : Z) (r : Remote) : Remote :=
  {| clock := clock r + d; linodes := linodes r; disks := disks r;
     configs := configs r; jobs := jobs r; ips := ips r; kernels := kernels r;
     datacenters := datacenters r; plans := plans r;
     distributions := distributions r; images := images r;
     failing := failing r |}.

Definition client : Client Remote := {|
  Linode_List := λ _ r, reply LinodeList (linodes r) r;
  Linode_Create := λ _ _ _ r, reply LinodeCreate 1001 r;
  Linode_Update := λ _ _ r, reply LinodeUpdate tt r;
  Linode_Resize := λ _ _ r, reply LinodeResize tt r;
  Linode_Boot := λ _ _ r, reply LinodeBoot tt r;
  Linode_Reboot := λ _ _ r, reply LinodeReboot tt r;
  Linode_Delete := λ _ _ r, reply LinodeDelete tt r;
  Disk_List := λ _ _ r, reply DiskList (disks r) r;
  Disk_Create := λ _ _ _ _ _ r, reply DiskCreate tt r;
  Disk_CreateFromDistribution := λ _ _ _ _ _ r,
    reply DiskCreateFromDistribution tt r;
  Disk_CreateFromImage := λ _ _ _ _ _ r, reply DiskCreateFromImage tt r;
  Disk_Resize := λ _ _ _ r, reply DiskResize tt r;
  Config_List := λ _ _ r, reply ConfigList (configs r) r;
  Config_Create := λ _ _ _ _ r, reply ConfigCreate 7001 r;
  Config_Update := λ _ _ _ _ r, reply ConfigUpdate tt r;
  Ip_List := λ _ _ r, reply IpList (ips r) r;
  Ip_AddPrivate := λ _ r, reply IpAddPrivate "192.168.128.10" r;
  Job_List := λ _ _ _ r, reply JobList (jobs r) r;
  Avail_Kernels := λ r, reply AvailKernels (kernels r) r;
  Avail_DataCenters := λ r, reply AvailDataCenters (datacenters r) r;
  Avail_LinodePlans := λ r, reply AvailLinodePlans (plans r) r;
  Avail_Distributions := λ r, reply AvailDistributions (distributions r) r;
  Image_List := λ r, reply ImageList (images r) r;
  Now := clock;
  SleepFor := sleep |}.

Definition linode1 : Linode :=
  {| LinodeId := 1001; Label := "web"; LpmDisplayGroup := "Linode";
     DataCenterId := 2; PlanId := 1; Status := 1; TotalHD := 10240 |}.

Definition config1 (helper_distro helper_network : bool) : LinodeConfig :=
  {| ConfigId := 7001; ConfigLinodeId := 1001; ConfigKernelId := 138;
     HelperDistro := helper_distro; HelperNetwork := helper_network |}.

Definition kernels1 : list Kernel :=
  [ {| KernelId := 138; KernelLabel := "Latest 4.x (4.19.86)" |};
    {| KernelId := 92; KernelLabel := "2.6.18.8-linode22" |} ].

Definition plans1 : list LinodePlan :=
  [ {| PlanPlanId := 1; RAM := 1024; PlanDisk := 20 |};
    {| PlanPlanId := 2; RAM := 2048; PlanDisk := 40 |} ].

Definition datacenters1 : list DataCenter :=
  [ {| DcDataCenterId := 2; Location := "Dallas, TX, USA" |};
    {| DcDataCenterId := 6; Location := "Newark, NJ, USA" |} ].

(** A remote system with one instance, its disks and its jobs. *)
Definition remote_with (ds : list Disk) (cs : list LinodeConfig)
    (js : list Job) (bad : list Api) : Remote :=
  {| clock := 0;
     linodes := {| Errors := []; Linodes := [linode1] |};
     disks := ds; configs := cs; jobs := js;
     ips := [ {| IsPublic := 1; IPAddress := "203.0.113.7" |} ];
     kernels := kernels1; datacenters := datacenters1; plans := plans1;
     distributions :=
       [ {| DistributionId := 140; DistributionLabel := "Debian 8" |} ];
     images := [];
     failing := bad |}.

(** The same world once the three catalogs are loaded. *)
Definition world_cached (r : Remote) : World Remote :=
  {| remote := r; kernelList := Some (kernels r);
     regionList := Some (datacenters r); sizeList := Some (plans r);
     trace := [] |}.

(** A catalog in which one floating label begins with another one; the ids
    are distinct. *)
Definition kernels_prefix : list Kernel :=
  [ {| KernelId := 1; KernelLabel := "Latest 4.x (4.19.86)" |};
    {| KernelId := 2; KernelLabel := "Latest 4" |} ].

(** A catalog in which two regions carry one id. *)
Definition datacenters_same_id : list DataCenter :=
  [ {| DcDataCenterId := 1; Location := "Dallas, TX, USA" |};
    {| DcDataCenterId := 1; Location := "Newark, NJ, USA" |} ].

(** A remote system that serves these two catalogs. *)
Definition remote_catalogs (ks : list Kernel) (dcs : list DataCenter) : Remote :=
  {| clock := 0; linodes := {| Errors := []; Linodes := [] |}; disks := [];
     configs := []; jobs := []; ips := []; kernels := ks; datacenters := dcs;
     plans := plans1; distributions := []; images := []; failing := [] |}.

Definition world_of (r : Remote) : World Remote :=
  {| remote := r; kernelList := None; regionList := None; sizeList := None;
     trace := [] |}.

Definition resource (id : string) (new old : list (string * Value))
  : ResourceData :=
  {| rd_id := id; attrs := list_to_map new; prior := list_to_map old;
     partial := false; partial_keys := []; conn_info := ∅ |}.

Definition state_of (r : Remote) (d : ResourceData) : State Remote :=
  {| world := world_of r; data := d |}.

Definition root_disk (mb : Z) : Disk :=
  {| DiskId := 501; DiskLabel := "Root(1001)__Base(140)"; DiskType := "ext4";
     Size := mb |}.

Definition swap_disk (mb : Z) : Disk :=
  {| DiskId := 502; DiskLabel := "swap"; DiskType := "swap"; Size := mb |}.

Definition done_job : Job := {| JobId := 1; HostFinishDt_IsSet := true |}.


End Demo.

(** ** Shapes of kernel labels, for the statements below *)

Fixpoint all_chars (p : ascii → bool) (s : string) : bool :=
  match s with
  | EmptyString => true
  | String c s' => p c && all_chars p s'
  end.

(** White space only. *)
Definition blank (s : string) : bool := all_chars is_space s.

(** No opening parenthesis. *)
Definition no_lparen (s : string) : bool :=
  all_chars (λ c, negb (Ascii.eqb c "(")) s.

(** No newline. *)
Definition one_line (s : string) : bool :=
  all_chars (λ c, negb (is_newline c)) s.

(** The last character, if there is one, is no white space. *)
Fixpoint ends_in_text (s : string) : bool :=
  match s with
  | EmptyString => true
  | String c EmptyString => negb (is_space c)
  | String _ s' => ends_in_text s'
  end.

(** [base], white space, and a qualifier in parentheses with white space
    behind it. *)
Definition qualified (base ws q ws' : string) : string :=
  base +:+ ws +:+ "(" +:+ q +:+ ")" +:+ ws'.


(** ** Assertions on runs *)

(** [wp m s Q]: the run of [m] from [s] ends in a result and a state that
    satisfy [Q]. *)
Definition wp {S A} (m : M S A) (s : S) (Q : result A → S → Prop) : Prop :=
  Q (m s).1 (m s).2.

(** The Go view of an answer. *)
Definition result_of {A} (a : answer A) : result A :=
  match a with inl e => Err e | inr x => Ok x end.

(** [w'] is [w] after more events, all of which satisfy [G]. *)
Definition extends {R} (G : Event → Prop) (w w' : World R) : Prop :=
  ∃ evs, trace w' = trace w ++ evs ∧ Forall G evs.

(** Whatever its result, [m] adds only events that satisfy [G]. *)
Definition emits {R A} (G : Event → Prop) (m : M (World R) A) : Prop :=
  ∀ w, extends G w (m w).2.

(** The same for an operation on [d]. *)
Definition emitsS {R A} (G : Event → Prop) (m : M (State R) A) : Prop :=
  ∀ st, extends G (world st) (world (m st).2).

(** Moreover [m] leaves what [d.Get] and [d.HasChange] read as it is. *)
Definition frames {R A} (G : Event → Prop) (m : M (State R) A) : Prop :=
  ∀ st,
    extends G (world st) (world (m st).2)
    ∧ attrs (data (m st).2) = attrs (data st)
    ∧ prior (data (m st).2) = prior (data st).

(** The event is a call of one of the methods [l]. *)
Definition among (l : list Api) (ev : Event) : Prop := api_of ev ∈ l.

(** The storage allowance, in megabytes, of a plan of the cached catalog:
    what [getPlanDiskSize] hands back once the catalog is loaded. *)
Definition plan_storage {R} (w : World R) (planID : Z) : option Z :=
  match sizeList w with
  | Some s => getPlanDiskSize_loop s planID
  | None => None
  end.




(** The listing and catalog calls, which change nothing on the remote
    system. *)
Definition read_calls : list Api :=
  [LinodeList; IpList; AvailDataCenters; AvailLinodePlans; DiskList;
   ConfigList; AvailKernels].

(** [m] adds only events that satisfy [G] and leaves the id of the resource
    and its partial mode as they are. *)
Definition steady {R A} (G : Event → Prop) (m : M (State R) A) : Prop :=
  ∀ st,
    extends G (world st) (world (m st).2)
    ∧ rd_id (data (m st).2) = rd_id (data st)
    ∧ partial (data (m st).2) = partial (data st).

(** [m] never ends in a run-time panic. *)
Definition no_panic {S A} (m : M S A) : Prop :=
  ∀ s msg, (m s).1 ≠ Panic msg.

(** [m] answers from the cache [cache] without a call when it is loaded,
    and leaves it empty only when the call [fetch] that loads it failed,
    with the error of that call as its result. *)
Definition memoized {R A B} (cache : World R → option B)
    (fetch : R → answer B * R) (m : M (World R) A) : Prop :=
  ∀ w,
    (is_Some (cache w) → (m w).2 = w)
    ∧ (cache (m w).2 = None →
       ∃ e, (fetch (remote w)).1 = inl e ∧ (m w).1 = Err e).

(** The events of a waiter on [linodeId]: polls of its job list, with a
    sleep of one second between a poll and the next one. *)
Fixpoint polls_spaced (linodeId : Z) (evs : list Event) : bool :=
  match evs with
  | [] => true
  | EvJobList l j p _ :: evs' =>
      (l =? linodeId) && (j =? -1) && negb p
      && match evs' with
         | [] => true
         | EvSleep d :: evs'' => (d =? Second) && polls_spaced linodeId evs''
         | _ => false
         end
  | _ => false
  end.

(** The sum of the sizes of the disks, in unbounded arithmetic. *)
Definition sum_sizes (disks : list Disk) : Z :=
  fold_right (λ dk acc, Size dk + acc) 0 disks.

(** The last element of [l] that satisfies [p]. *)
Definition last_that {A} (p : A → bool) (l : list A) : option A :=
  last (List.filter p l).

(** The value of the digits [u] read from the left, after the value [acc]. *)
Fixpoint uint_value (acc : Z) (u : Decimal.uint) : Z :=
  match u with
  | Decimal.Nil => acc
  | Decimal.D0 u => uint_value (acc * 10 + 0) u
  | Decimal.D1 u => uint_value (acc * 10 + 1) u
  | Decimal.D2 u => uint_value (acc * 10 + 2) u
  | Decimal.D3 u => uint_value (acc * 10 + 3) u
  | Decimal.D4 u => uint_value (acc * 10 + 4) u
  | Decimal.D5 u => uint_value (acc * 10 + 5) u
  | Decimal.D6 u => uint_value (acc * 10 + 6) u
  | Decimal.D7 u => uint_value (acc * 10 + 7) u
  | Decimal.D8 u => uint_value (acc * 10 + 8) u
  | Decimal.D9 u => uint_value (acc * 10 + 9) u
  end.

(** * Properties *)

(** ** The pattern *)

Lemma append_empty s : "" +:+ s = s.
Proof. reflexivity. Qed.

Lemma append_String c s t : String c s +:+ t = String c (s +:+ t).
Proof. reflexivity. Qed.

Lemma skip_space_blank ws s : blank ws = true → skip_space (ws +:+ s) = skip_space s.
Proof.
  induction ws as [|c ws IH]; [done|].
  intros [Hc Hws]%andb_true_iff. rewrite append_String. simpl.
  rewrite Hc. auto.
Qed.

Lemma skip_space_text c s : is_space c = false → skip_space (String c s) = String c s.
Proof. intros H. simpl. by rewrite H. Qed.

Lemma after_last_rparen_blank ws : blank ws = true → after_last_rparen ws = None.
Proof.
  induction ws as [|c ws IH]; simpl; [done|].
  intros [Hc Hws]%andb_true_iff. rewrite (IH Hws).
  destruct (is_newline c); [done|].
  destruct (Ascii.eqb_spec c ")") as [->|]; [discriminate Hc | done].
Qed.

Lemma after_last_rparen_qualifier q ws' :
  one_line q = true → blank ws' = true →
  after_last_rparen (q +:+ ")" +:+ ws') = Some ws'.
Proof.
  intros Hq Hws. induction q as [|c q IH].
  - rewrite append_empty, append_String, append_empty. simpl.
    by rewrite (after_last_rparen_blank _ Hws).
  - apply andb_true_iff in Hq as [Hc Hq].
    apply negb_true_iff in Hc. rewrite append_String. simpl.
    rewrite Hc, (IH Hq). done.
Qed.

Lemma match_at_qualifier ws q ws' :
  blank ws = true → one_line q = true → blank ws' = true →
  match_at (ws +:+ "(" +:+ q +:+ ")" +:+ ws') = Some EmptyString.
Proof.
  intros Hws Hq Hws'. unfold match_at.
  rewrite (skip_space_blank _ _ Hws), append_String, append_empty. simpl.
  rewrite (after_last_rparen_qualifier _ _ Hq Hws').
  f_equal. clear -Hws'. induction ws' as [|c ws' IH]; [done|].
  simpl in *. apply andb_true_iff in Hws' as [-> Hws']. auto.
Qed.

Lemma no_lparen_String c s :
  no_lparen (String c s) = negb (Ascii.eqb c "(") && no_lparen s.
Proof. reflexivity. Qed.

(** No match starts inside of a text without parenthesis that does not end
    in white space. *)
Lemma match_at_text c base s :
  no_lparen (String c base) = true → ends_in_text (String c base) = true →
  match_at (String c base +:+ s) = None.
Proof.
  revert c. induction base as [|c' base IH]; intros c Hp He.
  - rewrite no_lparen_String in Hp. simpl in He. apply negb_true_iff in He.
    apply andb_true_iff in Hp as [Hp _]. apply negb_true_iff in Hp.
    unfold match_at. rewrite append_String. simpl. rewrite He. by rewrite Hp.
  - rewrite no_lparen_String in Hp. apply andb_true_iff in Hp as [Hc Hp].
    apply negb_true_iff in Hc.
    unfold match_at. rewrite append_String. simpl skip_space.
    destruct (is_space c) eqn:Hsp.
    + apply (IH c'); [exact Hp | exact He].
    + by rewrite Hc.
Qed.

Lemma strip_from_empty n : strip_from n EmptyString = EmptyString.
Proof. by destruct n. Qed.

Lemma strip_from_qualified n base tail :
  no_lparen base = true → ends_in_text base = true →
  match_at tail = Some EmptyString →
  (String.length base < n)%nat →
  strip_from n (base +:+ tail) = base.
Proof.
  revert n. induction base as [|c base IH]; intros n Hp He Ht Hn.
  - rewrite append_empty. destruct n as [|n]; [simpl in Hn; lia|].
    simpl. rewrite Ht. apply strip_from_empty.
  - destruct n as [|n]; [simpl in Hn; lia|].
    change (strip_from (S n) (String c base +:+ tail)) with
      (match match_at (String c base +:+ tail) with
       | Some rest => strip_from n rest
       | None => String c (strip_from n (base +:+ tail))
       end).
    rewrite (match_at_text c base tail Hp He). f_equal.
    apply IH.
    + rewrite no_lparen_String in Hp. by apply andb_true_iff in Hp as [_ Hp].
    + destruct base; [done | exact He].
    + exact Ht.
    + simpl in Hn. lia.
Qed.

Lemma length_append s t :
  String.length (s +:+ t) = (String.length s + String.length t)%nat.
Proof.
  induction s; [done|]. rewrite append_String. simpl. by rewrite IHs.
Qed.

(** A label that is a text, white space and a qualifier in parentheses is
    stripped to the text. *)
Lemma strip_qualified base ws q ws' :
  no_lparen base = true → ends_in_text base = true →
  blank ws = true → one_line q = true → blank ws' = true →
  latestKernelStrip_ReplaceAllString (qualified base ws q ws') = base.
Proof.
  intros Hp He Hws Hq Hws'. unfold latestKernelStrip_ReplaceAllString, qualified.
  apply strip_from_qualified; [done | done | |].
  - by apply match_at_qualifier.
  - rewrite !length_append. simpl. lia.
Qed.

(** ** Rules for runs *)

Section Rules.

Context {R : Type}.
Variable client : Client R.

Lemma wp_run {S A} (m : M S A) s Q r s' : m s = (r, s') → Q r s' → wp m s Q.
Proof. unfold wp. by intros ->. Qed.

Lemma wp_elim {S A} (m : M S A) s Q r s' : wp m s Q → m s = (r, s') → Q r s'.
Proof. unfold wp. intros H E. by rewrite E in H. Qed.

Lemma wp_ret {S A} (a : A) (s : S) Q : Q (Ok a) s → wp (mret a) s Q.
Proof. done. Qed.

Lemma wp_bind {S A B} (m : M S A) (k : A → M S B) s Q :
  wp m s (λ r s',
    match r with
    | Ok a => wp (k a) s' Q
    | Err e => Q (Err e) s'
    | Panic msg => Q (Panic msg) s'
    | OutOfFuel => Q OutOfFuel s'
    end) →
  wp (m ≫= k) s Q.
Proof.
  unfold wp, mbind, M_bind. destruct (m s) as [[a|e|msg|] s']; simpl; auto.
Qed.

Lemma wp_fail {S A} (e : error) (s : S) (Q : result A → S → Prop) :
  Q (Err e) s → wp (fail e) s Q.
Proof. done. Qed.

Lemma wp_panic {S A} msg (s : S) (Q : result A → S → Prop) :
  Q (Panic msg) s → wp (panic msg) s Q.
Proof. done. Qed.

Lemma wp_out_of_fuel {S A} (s : S) (Q : result A → S → Prop) :
  Q OutOfFuel s → wp out_of_fuel s Q.
Proof. done. Qed.

Lemma wp_because {S A} format (m : M S A) s Q :
  wp m s (λ r s',
    Q (match r with Err e => Err (ErrorfBecause format e) | other => other end)
      s') →
  wp (because format m) s Q.
Proof.
  unfold wp, because. destruct (m s) as [[a|e|msg|] s']; simpl; auto.
Qed.

Lemma wp_discard_err {S A} (dflt : A) (m : M S A) s Q :
  wp m s (λ r s', Q (match r with Err _ => Ok dflt | other => other end) s') →
  wp (discard_err dflt m) s Q.
Proof.
  unfold wp, discard_err. destruct (m s) as [[a|e|msg|] s']; simpl; auto.
Qed.

Lemma wp_load {A} (var : World R → A) w Q : Q (Ok (var w)) w → wp (load var) w Q.
Proof. done. Qed.

Lemma wp_store (upd : World R → World R) w Q :
  Q (Ok tt) (upd w) → wp (store upd) w Q.
Proof. done. Qed.

Lemma wp_call {A} (method : R → answer A * R) ev w Q :
  (∀ a r', method (remote w) = (a, r') →
     Q (result_of a) (with_remote r' [ev a] w)) →
  wp (remote_call method ev) w Q.
Proof.
  intros H. unfold wp, remote_call.
  destruct (method (remote w)) as [a r'] eqn:E. simpl.
  apply (H a r' eq_refl).
Qed.

Lemma wp_liftW {A} (m : M (World R) A) (st : State R) Q :
  wp m (world st) (λ r w', Q r {| world := w'; data := data st |}) →
  wp (liftW m) st Q.
Proof. unfold wp, liftW. by destruct (m (world st)). Qed.

Lemma wp_getd {A} (f : ResourceData → A) (st : State R) Q :
  Q (Ok (f (data st))) st → wp (getd f) st Q.
Proof. done. Qed.

Lemma wp_modd f (st : State R) Q :
  Q (Ok tt) {| world := world st; data := f (data st) |} → wp (modd f) st Q.
Proof. done. Qed.

(** A callee of which only the events are known. *)
Lemma wp_emits {A} G (m : M (World R) A) w Q :
  emits G m → (∀ r w', extends G w w' → Q r w') → wp m w Q.
Proof. intros Hm HQ. apply HQ, Hm. Qed.

Lemma wp_emitsS {A} G (m : M (State R) A) st Q :
  emitsS G m → (∀ r st', extends G (world st) (world st') → Q r st') →
  wp m st Q.
Proof. intros Hm HQ. apply HQ, Hm. Qed.

Lemma wp_frames {A} G (m : M (State R) A) st Q :
  frames G m →
  (∀ r st', extends G (world st) (world st') →
     attrs (data st') = attrs (data st) → prior (data st') = prior (data st) →
     Q r st') →
  wp m st Q.
Proof. intros Hm HQ. destruct (Hm st) as (? & ? & ?). by apply HQ. Qed.

(** *** Traces *)

Lemma extends_refl G (w : World R) : extends G w w.
Proof. exists []. by rewrite app_nil_r. Qed.

Lemma extends_trans G (w1 w2 w3 : World R) :
  extends G w1 w2 → extends G w2 w3 → extends G w1 w3.
Proof.
  intros (e1 & H1 & F1) (e2 & H2 & F2). exists (e1 ++ e2). split.
  - by rewrite H2, H1, app_assoc.
  - by apply Forall_app.
Qed.

Lemma extends_weaken (G G' : Event → Prop) (w w' : World R) :
  (∀ ev, G ev → G' ev) → extends G w w' → extends G' w w'.
Proof.
  intros HG (evs & H & F). exists evs. split; [done|].
  eapply Forall_impl; eauto.
Qed.

Lemma extends_step G (w w' : World R) r ev :
  extends G w w' → G ev → extends G w (with_remote r [ev] w').
Proof.
  intros (evs & H & F) Hev. exists (evs ++ [ev]). split.
  - simpl. by rewrite H, app_assoc.
  - apply Forall_app. split; [done | by constructor].
Qed.

Lemma among_weaken l l' ev :
  forallb (λ a, bool_decide (a ∈ l')) l = true → among l ev → among l' ev.
Proof.
  unfold among. intros H Hin. rewrite forallb_forall in H.
  apply list_elem_of_In, H in Hin. by apply bool_decide_eq_true in Hin.
Qed.

Lemma among_not l a ev :
  bool_decide (a ∈ l) = false → among l ev → api_of ev ≠ a.
Proof.
  unfold among. intros H Hin E. rewrite E in Hin.
  by apply bool_decide_eq_false in H.
Qed.

End Rules.

(** *** Symbolic execution *)

Ltac norm_state :=
  cbn [id world data rd_id attrs prior partial partial_keys conn_info
       rd_with_id rd_with_attrs rd_with_partial rd_with_partial_keys
       rd_with_conn_info].

Ltac wp_step :=
  lazymatch goal with
  | |- wp (mret _) _ _ => apply wp_ret
  | |- wp (_ ≫= _) _ _ => apply wp_bind
  | |- wp (fail _) _ _ => apply wp_fail
  | |- wp (panic _) _ _ => apply wp_panic
  | |- wp out_of_fuel _ _ => apply wp_out_of_fuel
  | |- wp (because _ _) _ _ => apply wp_because
  | |- wp (discard_err _ _) _ _ => apply wp_discard_err
  | |- wp (load _) _ _ => apply wp_load
  | |- wp (store _) _ _ => apply wp_store
  | |- wp (time_Now _) _ _ => apply wp_load
  | |- wp (time_Since _ _) _ _ => apply wp_load
  | |- wp (time_Sleep _ _) _ _ => apply wp_store
  | |- wp (remote_call _ _) _ _ =>
      let a := fresh "a" in
      let r := fresh "r" in
      let E := fresh "Hcall" in
      apply wp_call; intros a r E; destruct a; unfold result_of
  | |- wp (liftW _) _ _ => apply wp_liftW
  | |- wp (getd _) _ _ => apply wp_getd
  | |- wp (modd _) _ _ => apply wp_modd
  | |- wp (d_Set _ _) _ _ => apply wp_modd
  | |- wp (d_SetId _) _ _ => apply wp_modd
  | |- wp (d_Partial _) _ _ => apply wp_modd
  | |- wp (d_SetPartial _) _ _ => apply wp_modd
  | |- wp (d_SetConnInfo _) _ _ => apply wp_modd
  | |- wp (match ?x with _ => _ end) _ _ => destruct x eqn:?
  end; cbv beta iota; norm_state.

(** Goals on traces: the events added since a world. *)
Ltac open_extends :=
  repeat match goal with
    | H : extends _ _ _ |- _ =>
        let evs := fresh "evs" in
        let Ht := fresh "Ht" in
        let Hf := fresh "Hf" in
        destruct H as (evs & Ht & Hf)
    end.

Ltac trace_eq :=
  cbn [trace with_remote with_kernelList with_regionList with_sizeList world]
    in *;
  repeat match goal with
    | H : trace _ = _ |- _ => rewrite H in *; clear H
    end;
  rewrite <- ?app_assoc; reflexivity.

Ltac among_tac :=
  unfold among; cbn [api_of]; apply (bool_decide_unpack _); vm_compute;
  exact I.

Ltac forall_among :=
  repeat first
    [ assumption
    | match goal with
      | |- Forall _ [] => constructor
      | |- Forall _ (_ :: _) => constructor
      | |- Forall _ (_ ++ _) => apply Forall_app; split
      end
    | (eapply Forall_impl; [eassumption|]; intros ? ?;
       eapply among_weaken; [|eassumption]; reflexivity)
    | among_tac ].

Ltac solve_extends :=
  first
    [ apply extends_refl
    | open_extends; eexists; split; [trace_eq | forall_among] ].

Create HintDb emits.

(** A callee whose events are known from a lemma of the database. *)
Ltac wp_callee :=
  lazymatch goal with
  | |- wp _ _ _ =>
      eapply wp_emits;
      [ solve [eauto with emits]
      | let r := fresh "r" in
        let w := fresh "w" in
        let H := fresh "Hext" in
        norm_state; intros r w H; try destruct r; cbv beta iota ]
  end.

Ltac wp_auto := repeat first [wp_step | wp_callee].

Section Callees.

Context {R : Type}.
Variable client : Client R.

Lemma emits_wp {A} G (m : M (World R) A) :
  (∀ w, wp m w (λ _ w', extends G w w')) → emits G m.
Proof. done. Qed.

Lemma getKernelList_emits : emits (among [AvailKernels]) (getKernelList client).
Proof.
  apply emits_wp. intros w. unfold getKernelList.
  repeat wp_step; solve_extends.
Qed.

Lemma getRegionList_emits :
  emits (among [AvailDataCenters]) (getRegionList client).
Proof.
  apply emits_wp. intros w. unfold getRegionList.
  repeat wp_step; solve_extends.
Qed.

Lemma getSizeList_emits : emits (among [AvailLinodePlans]) (getSizeList client).
Proof.
  apply emits_wp. intros w. unfold getSizeList.
  repeat wp_step; solve_extends.
Qed.

#[local] Hint Resolve getKernelList_emits getRegionList_emits
  getSizeList_emits : emits.

Lemma getKernelName_emits kernelId :
  emits (among [AvailKernels]) (getKernelName client kernelId).
Proof.
  apply emits_wp. intros w. unfold getKernelName. wp_auto; solve_extends.
Qed.

Lemma getKernelID_emits kernelName :
  emits (among [AvailKernels]) (getKernelID client kernelName).
Proof.
  apply emits_wp. intros w. unfold getKernelID. wp_auto; solve_extends.
Qed.

Lemma getRegionName_emits regionId :
  emits (among [AvailDataCenters]) (getRegionName client regionId).
Proof.
  apply emits_wp. intros w. unfold getRegionName. wp_auto; solve_extends.
Qed.

Lemma getRegionID_emits regionName :
  emits (among [AvailDataCenters]) (getRegionID client regionName).
Proof.
  apply emits_wp. intros w. unfold getRegionID. wp_auto; solve_extends.
Qed.

Lemma getSizeId_emits size :
  emits (among [AvailLinodePlans]) (getSizeId client size).
Proof.
  apply emits_wp. intros w. unfold getSizeId. wp_auto; solve_extends.
Qed.

Lemma getSize_emits sizeId :
  emits (among [AvailLinodePlans]) (getSize client sizeId).
Proof.
  apply emits_wp. intros w. unfold getSize. wp_auto; solve_extends.
Qed.

Lemma getPlanDiskSize_emits planID :
  emits (among [AvailLinodePlans]) (getPlanDiskSize client planID).
Proof.
  apply emits_wp. intros w. unfold getPlanDiskSize. wp_auto; solve_extends.
Qed.

Lemma getTotalDiskSize_emits linodeID :
  emits (among [DiskList]) (getTotalDiskSize client linodeID).
Proof.
  apply emits_wp. intros w. unfold getTotalDiskSize. wp_auto; solve_extends.
Qed.

Lemma getBiggestDisk_emits linodeID :
  emits (among [DiskList]) (getBiggestDisk client linodeID).
Proof.
  apply emits_wp. intros w. unfold getBiggestDisk. wp_auto; solve_extends.
Qed.

Lemma getIps_emits linodeId : emits (among [IpList]) (getIps client linodeId).
Proof.
  apply emits_wp. intros w. unfold getIps. wp_auto; solve_extends.
Qed.

Lemma findImage_emits imageName :
  emits (among [AvailDistributions; ImageList]) (findImage client imageName).
Proof.
  apply emits_wp. intros w. unfold findImage. wp_auto; solve_extends.
Qed.

Lemma wait_loop_emits fuel linodeId start deadline timeout :
  emits (among [JobList; Sleep])
    (wait_loop client fuel linodeId start deadline timeout).
Proof.
  induction fuel as [|fuel IH]; apply emits_wp; intros w; simpl.
  - wp_auto; solve_extends.
  - wp_auto; solve_extends.
Qed.

#[local] Hint Resolve wait_loop_emits : emits.

Lemma waitForJobsToComplete_emits fuel linodeId :
  emits (among [JobList; Sleep]) (waitForJobsToComplete client fuel linodeId).
Proof.
  apply emits_wp. intros w. unfold waitForJobsToComplete.
  wp_auto; solve_extends.
Qed.

Lemma waitForJobsToCompleteWaitMinutes_emits fuel linodeId waitMinutes :
  emits (among [JobList; Sleep])
    (waitForJobsToCompleteWaitMinutes client fuel linodeId waitMinutes).
Proof.
  apply emits_wp. intros w. unfold waitForJobsToCompleteWaitMinutes.
  wp_auto; solve_extends.
Qed.

#[local] Hint Resolve findImage_emits waitForJobsToComplete_emits : emits.

Lemma deployImage_emits fuel linode imageName diskSize key password :
  emits
    (among [AvailDistributions; ImageList; DiskCreateFromDistribution;
            DiskCreateFromImage; JobList; Sleep])
    (deployImage client fuel linode imageName diskSize key password).
Proof.
  apply emits_wp. intros w. unfold deployImage. wp_auto; solve_extends.
Qed.

End Callees.

#[global] Hint Resolve getKernelName_emits getKernelID_emits
  getRegionName_emits getRegionID_emits getSizeId_emits getSize_emits
  getPlanDiskSize_emits getTotalDiskSize_emits getBiggestDisk_emits
  getIps_emits findImage_emits wait_loop_emits waitForJobsToComplete_emits
  waitForJobsToCompleteWaitMinutes_emits deployImage_emits : emits.

Ltac solve_frames :=
  split; [solve_extends | split; reflexivity].

Section Steps.

Context {R : Type}.
Variable client : Client R.

Lemma frames_wp {A} G (m : M (State R) A) :
  (∀ st, wp m st (λ _ st',
     extends G (world st) (world st')
     ∧ attrs (data st') = attrs (data st)
     ∧ prior (data st') = prior (data st))) →
  frames G m.
Proof. done. Qed.

Lemma emitsS_wp {A} G (m : M (State R) A) :
  (∀ st, wp m st (λ _ st', extends G (world st) (world st'))) → emitsS G m.
Proof. done. Qed.

Lemma frames_emitsS {A} G (m : M (State R) A) : frames G m → emitsS G m.
Proof. intros H st. apply H. Qed.

Lemma changeLinodeSettings_frames linode :
  frames (among [LinodeUpdate]) (changeLinodeSettings client linode).
Proof.
  apply frames_wp. intros st. unfold changeLinodeSettings.
  wp_auto; solve_frames.
Qed.

Lemma changeLinodeConfig_frames config :
  frames (among [ConfigUpdate]) (changeLinodeConfig client config).
Proof.
  apply frames_wp. intros st. unfold changeLinodeConfig.
  wp_auto; solve_frames.
Qed.

Lemma changeLinodeSize_frames fuel linode :
  frames
    (among [AvailLinodePlans; DiskList; LinodeResize; JobList; Sleep;
            DiskResize; LinodeBoot])
    (changeLinodeSize client fuel linode).
Proof.
  apply frames_wp. intros st. unfold changeLinodeSize.
  wp_auto; solve_frames.
Qed.

Lemma resourceLinodeLinodeRead_emitsS :
  emitsS
    (among [LinodeList; IpList; AvailDataCenters; AvailLinodePlans; DiskList;
            ConfigList; AvailKernels])
    (resourceLinodeLinodeRead client).
Proof.
  apply emitsS_wp. intros st. unfold resourceLinodeLinodeRead.
  wp_auto; solve_extends.
Qed.

End Steps.

(** ** The reference catalogs *)

Section Catalogs.

Context {R : Type}.
Variable client : Client R.

Ltac run_cached H :=
  unfold mbind, M_bind, load, mret, M_ret, fail; cbn beta iota; rewrite H;
  cbn beta iota; rewrite ?H.

Lemma getKernelID_cached (w : World R) k kernelName :
  kernelList w = Some k →
  getKernelID client kernelName w =
    (match getKernelID_loop k kernelName with
     | Some id => Ok id
     | None => Err (Errorf "Failed to find kernel %s")
     end, w).
Proof.
  intros H. unfold getKernelID. run_cached H.
  by destruct (getKernelID_loop k kernelName).
Qed.

Lemma getKernelName_cached (w : World R) k kernelId :
  kernelList w = Some k →
  getKernelName client kernelId w =
    (match getKernelName_loop k kernelId with
     | Some name => Ok name
     | None => Err (Errorf "Failed to find kernel id %d")
     end, w).
Proof.
  intros H. unfold getKernelName. run_cached H.
  by destruct (getKernelName_loop k kernelId).
Qed.

Lemma getRegionID_cached (w : World R) r regionName :
  regionList w = Some r →
  getRegionID client regionName w =
    (match getRegionID_loop r regionName with
     | Some id => Ok id
     | None => Err (Errorf "Failed to find the region name %s")
     end, w).
Proof.
  intros H. unfold getRegionID. run_cached H.
  by destruct (getRegionID_loop r regionName).
Qed.

Lemma getRegionName_cached (w : World R) r regionId :
  regionList w = Some r →
  getRegionName client regionId w =
    (match getRegionName_loop r regionId with
     | Some name => Ok name
     | None => Err (Errorf "Failed to find region id %d")
     end, w).
Proof.
  intros H. unfold getRegionName. run_cached H.
  by destruct (getRegionName_loop r regionId).
Qed.

Lemma getSizeId_cached (w : World R) s size :
  sizeList w = Some s →
  getSizeId client size w =
    (match getSizeId_loop s size with
     | Some id => Ok id
     | None => Err (Errorf "Unable to locate the plan with RAM %d")
     end, w).
Proof.
  intros H. unfold getSizeId. run_cached H.
  by destruct (getSizeId_loop s size).
Qed.

Lemma getSize_cached (w : World R) s sizeId :
  sizeList w = Some s →
  getSize client sizeId w =
    (match getSize_loop s sizeId with
     | Some ram => Ok ram
     | None => Err (Errorf "Unabled to find plan id %d")
     end, w).
Proof.
  intros H. unfold getSize. run_cached H.
  by destruct (getSize_loop s sizeId).
Qed.


(** A lookup that succeeds leaves the catalog loaded, and found its answer
    in the loaded catalog. *)
Lemma getKernelID_ok (w w1 : World R) kernelName id :
  getKernelID client kernelName w = (Ok id, w1) →
  ∃ k, kernelList w1 = Some k ∧ getKernelID_loop k kernelName = Some id.
Proof.
  unfold getKernelID, getKernelList, remote_call, store.
  unfold mbind, M_bind, load, mret, M_ret, fail, panic. cbn beta iota.
  destruct (kernelList w) as [k|] eqn:Hk.
  - rewrite Hk. destruct (getKernelID_loop k kernelName) eqn:Hl; [|done].
    intros [= <- <-]. eauto.
  - destruct (Avail_Kernels client (remote w)) as [[e|k] r']; [done|].
    cbn. destruct (getKernelID_loop k kernelName) eqn:Hl; [|done].
    intros [= <- <-]. eauto.
Qed.

Lemma getRegionID_ok (w w1 : World R) regionName id :
  getRegionID client regionName w = (Ok id, w1) →
  ∃ r, regionList w1 = Some r ∧ getRegionID_loop r regionName = Some id.
Proof.
  unfold getRegionID, getRegionList, remote_call, store.
  unfold mbind, M_bind, load, mret, M_ret, fail, panic. cbn beta iota.
  destruct (regionList w) as [r|] eqn:Hr.
  - rewrite Hr. destruct (getRegionID_loop r regionName) eqn:Hl; [|done].
    intros [= <- <-]. eauto.
  - destruct (Avail_DataCenters client (remote w)) as [[e|r] r']; [done|].
    cbn. destruct (getRegionID_loop r regionName) eqn:Hl; [|done].
    intros [= <- <-]. eauto.
Qed.

Lemma getSizeId_ok (w w1 : World R) size id :
  getSizeId client size w = (Ok id, w1) →
  ∃ s, sizeList w1 = Some s ∧ getSizeId_loop s size = Some id
       ∧ extends (among [AvailLinodePlans]) w w1.
Proof.
  intros H. pose proof (getSizeId_emits client size w) as Hext.
  rewrite H in Hext. simpl in Hext. revert H.
  unfold getSizeId, getSizeList, remote_call, store.
  unfold mbind, M_bind, load, mret, M_ret, fail, panic. cbn beta iota.
  destruct (sizeList w) as [s|] eqn:Hs.
  - rewrite Hs. destruct (getSizeId_loop s size) eqn:Hl; [|done].
    intros [= <- <-]. eauto.
  - destruct (Avail_LinodePlans client (remote w)) as [[e|s] r']; [done|].
    cbn. destruct (getSizeId_loop s size) eqn:Hl; [|done].
    intros [= <- <-]. eauto.
Qed.

(** *** The loops as searches *)

Lemma getKernelID_loop_floating k kernelName :
  HasPrefix kernelName "Latest" = true →
  getKernelID_loop k kernelName =
    KernelId <$> find (λ ki, HasPrefix (KernelLabel ki) kernelName) k.
Proof.
  intros H. induction k as [|ki k IH]; simpl; [done|].
  rewrite H. by destruct (HasPrefix (KernelLabel ki) kernelName).
Qed.

Lemma getKernelID_loop_exact k kernelName :
  HasPrefix kernelName "Latest" = false →
  getKernelID_loop k kernelName =
    KernelId <$> find (λ ki, String.eqb (KernelLabel ki) kernelName) k.
Proof.
  intros H. induction k as [|ki k IH]; simpl; [done|].
  rewrite H. by destruct (String.eqb (KernelLabel ki) kernelName).
Qed.

Lemma find_first_of_id {A} (key : A → Z) (p : A → bool) (l : list A) x :
  NoDup (map key l) → find p l = Some x →
  find (λ y, key y =? key x) l = Some x.
Proof.
  induction l as [|y l IH]; simpl; [done|].
  intros Hnd Hf. apply NoDup_cons in Hnd as [Hy Hnd].
  destruct (p y).
  - injection Hf as ->. by rewrite Z.eqb_refl.
  - destruct (Z.eqb_spec (key y) (key x)) as [E|_]; [|by apply IH].
    exfalso. apply Hy. rewrite E. apply list_elem_of_fmap.
    exists x. split; [done|]. apply find_some in Hf as [Hin _].
    by apply list_elem_of_In.
Qed.

Lemma getKernelName_loop_find k kernelId :
  getKernelName_loop k kernelId =
    (λ ki, if HasPrefix (KernelLabel ki) "Latest"
           then latestKernelStrip_ReplaceAllString (KernelLabel ki)
           else KernelLabel ki) <$> find (λ ki, KernelId ki =? kernelId) k.
Proof.
  induction k as [|ki k IH]; simpl; [done|].
  destruct (KernelId ki =? kernelId); [|done]. simpl.
  by destruct (HasPrefix (KernelLabel ki) "Latest").
Qed.

Lemma getRegionID_loop_find r regionName :
  getRegionID_loop r regionName =
    DcDataCenterId <$> find (λ ri, String.eqb (Location ri) regionName) r.
Proof.
  induction r as [|ri r IH]; simpl; [done|].
  by destruct (String.eqb (Location ri) regionName).
Qed.

Lemma getRegionName_loop_find r regionId :
  getRegionName_loop r regionId =
    Location <$> find (λ ri, DcDataCenterId ri =? regionId) r.
Proof.
  induction r as [|ri r IH]; simpl; [done|].
  by destruct (DcDataCenterId ri =? regionId).
Qed.

Lemma getSizeId_loop_find s size :
  getSizeId_loop s size = PlanPlanId <$> find (λ si, RAM si =? size) s.
Proof.
  induction s as [|si s IH]; simpl; [done|]. by destruct (RAM si =? size).
Qed.

Lemma getSize_loop_find s sizeId :
  getSize_loop s sizeId = RAM <$> find (λ si, PlanPlanId si =? sizeId) s.
Proof.
  induction s as [|si s IH]; simpl; [done|].
  by destruct (PlanPlanId si =? sizeId).
Qed.

Lemma HasPrefix_append s t p :
  HasPrefix s p = true → HasPrefix (s +:+ t) p = true.
Proof.
  unfold HasPrefix. revert s. induction p as [|c p IH]; intros s H.
  - by destruct (s +:+ t).
  - destruct s as [|c' s]; [done|]. rewrite append_String. simpl in *.
    destruct (ascii_dec c c'); [by apply IH | done].
Qed.

End Catalogs.

Section CatalogClaims.

Context {R : Type}.
Variable client : Client R.

Lemma prefix_trans a b c :
  String.prefix a b = true → String.prefix b c = true →
  String.prefix a c = true.
Proof.
  revert b c. induction a as [|x a IH]; intros b c Hab Hbc.
  - by destruct c.
  - destruct b as [|y b]; [done|]. destruct c as [|z c]; [done|].
    simpl in *. destruct (ascii_dec x y) as [->|]; [|done].
    destruct (ascii_dec y z) as [->|]; [|done]. eauto.
Qed.

Lemma fmap_find_Some {A B} (f : A → B) (p : A → bool) (l : list A) b :
  f <$> find p l = Some b → ∃ x, find p l = Some x ∧ f x = b ∧ p x = true.
Proof.
  destruct (find p l) as [x|] eqn:Hf; [|done]. intros [= <-].
  exists x. split; [done|]. split; [done|]. by apply find_some in Hf as [_ ?].
Qed.

(** C4. For a kernel name that begins with "Latest", [getKernelID] hands
    back the id of the first catalog entry whose label begins with the name
    (a prefix match, no equality), and fails when there is none.  For a
    catalog entry whose label begins with "Latest" and is a text, white
    space and a qualifier in parentheses, [getKernelName] hands back the
    text alone: the id of "Latest 4.x (4.19.86)" resolves to "Latest 4.x". *)
Theorem C4_floating_kernel_lookup (w : World R) (k : list Kernel)
    (kernelName : string) :
  kernelList w = Some k →
  HasPrefix kernelName "Latest" = true →
  getKernelID client kernelName w =
    (match find (λ ki, HasPrefix (KernelLabel ki) kernelName) k with
     | Some ki => Ok (KernelId ki)
     | None => Err (Errorf "Failed to find kernel %s")
     end, w)
  ∧ ∀ kernelId ki base ws q ws',
      find (λ ki, KernelId ki =? kernelId) k = Some ki →
      KernelLabel ki = qualified base ws q ws' →
      HasPrefix base "Latest" = true →
      no_lparen base = true → ends_in_text base = true →
      blank ws = true → one_line q = true → blank ws' = true →
      getKernelName client kernelId w = (Ok base, w).
Proof.
  intros Hk Hlatest. split.
  - rewrite (getKernelID_cached client w k kernelName Hk).
    rewrite (getKernelID_loop_floating k kernelName Hlatest).
    by destruct (find _ k).
  - intros kernelId ki base ws q ws' Hfind Hlabel Hbase Hp He Hws Hq Hws'.
    rewrite (getKernelName_cached client w k kernelId Hk).
    rewrite getKernelName_loop_find, Hfind. simpl.
    rewrite Hlabel. unfold qualified at 1.
    rewrite (HasPrefix_append base _ "Latest" Hbase).
    by rewrite strip_qualified.
Qed.

(** C5, as amended.  In a catalog whose ids are distinct, a region name and
    a plan size that resolve to an id are what the id resolves back to, and
    so is a kernel name that does not begin with "Latest".  A kernel name
    that begins with "Latest" comes back as the stripped label of the first
    catalog entry whose label begins with the name: the name itself when
    that label is the name, white space and a qualifier in parentheses. *)
Theorem C5_round_trip (w w1 : World R) :
  (∀ regionName id,
     getRegionID client regionName w = (Ok id, w1) →
     (∀ r, regionList w1 = Some r → NoDup (map DcDataCenterId r)) →
     getRegionName client id w1 = (Ok regionName, w1))
  ∧ (∀ size id,
       getSizeId client size w = (Ok id, w1) →
       (∀ s, sizeList w1 = Some s → NoDup (map PlanPlanId s)) →
       getSize client id w1 = (Ok size, w1))
  ∧ (∀ kernelName id,
       getKernelID client kernelName w = (Ok id, w1) →
       (∀ k, kernelList w1 = Some k → NoDup (map KernelId k)) →
       (HasPrefix kernelName "Latest" = false →
        getKernelName client id w1 = (Ok kernelName, w1))
       ∧ (HasPrefix kernelName "Latest" = true →
          ∃ k ki,
            kernelList w1 = Some k
            ∧ find (λ ki, HasPrefix (KernelLabel ki) kernelName) k = Some ki
            ∧ getKernelName client id w1 =
                (Ok (latestKernelStrip_ReplaceAllString (KernelLabel ki)), w1)
            ∧ ∀ ws q ws',
                KernelLabel ki = qualified kernelName ws q ws' →
                no_lparen kernelName = true →
                ends_in_text kernelName = true →
                blank ws = true → one_line q = true → blank ws' = true →
                getKernelName client id w1 = (Ok kernelName, w1))).
Proof.
  split; [|split].
  - intros regionName id Hid Hnd.
    apply getRegionID_ok in Hid as (r & Hr & Hl).
    rewrite getRegionID_loop_find in Hl.
    apply fmap_find_Some in Hl as (ri & Hf & <- & Heq).
    rewrite (getRegionName_cached client w1 r _ Hr), getRegionName_loop_find.
    rewrite (find_first_of_id DcDataCenterId _ r ri (Hnd r Hr) Hf). simpl.
    by apply String.eqb_eq in Heq as ->.
  - intros size id Hid Hnd.
    apply getSizeId_ok in Hid as (s & Hs & Hl & _).
    rewrite getSizeId_loop_find in Hl.
    apply fmap_find_Some in Hl as (si & Hf & <- & Heq).
    rewrite (getSize_cached client w1 s _ Hs), getSize_loop_find.
    rewrite (find_first_of_id PlanPlanId _ s si (Hnd s Hs) Hf). simpl.
    by apply Z.eqb_eq in Heq as ->.
  - intros kernelName id Hid Hnd.
    apply getKernelID_ok in Hid as (k & Hk & Hl).
    rewrite (getKernelName_cached client w1 k _ Hk), getKernelName_loop_find.
    split; intros Hlatest.
    + rewrite (getKernelID_loop_exact k kernelName Hlatest) in Hl.
      apply fmap_find_Some in Hl as (ki & Hf & <- & Heq).
      rewrite (find_first_of_id KernelId _ k ki (Hnd k Hk) Hf). simpl.
      apply String.eqb_eq in Heq. rewrite Heq. unfold HasPrefix in *.
      by rewrite Hlatest.
    + rewrite (getKernelID_loop_floating k kernelName Hlatest) in Hl.
      apply fmap_find_Some in Hl as (ki & Hf & <- & Hpre).
      rewrite (find_first_of_id KernelId _ k ki (Hnd k Hk) Hf). simpl.
      assert (HasPrefix (KernelLabel ki) "Latest" = true) as ->
        by (unfold HasPrefix in *; eapply prefix_trans; eauto).
      exists k, ki. repeat split; [done | done |].
      intros ws q ws' Hlabel Hp He Hws Hq Hws'.
      by rewrite Hlabel, strip_qualified.
Qed.

End CatalogClaims.

(** C4 on the catalog of the design document: "Latest 4.x" resolves to the
    id of the entry labelled "Latest 4.x (4.19.86)", which has no entry of
    that very name, and that id resolves back to "Latest 4.x". *)
Lemma C4_floating_kernel_lookup_witness :
  let w := Demo.world_cached (Demo.remote_with [] [] [] []) in
  (kernelList w = Some Demo.kernels1 ∧ HasPrefix "Latest 4.x" "Latest" = true)
  ∧ getKernelID Demo.client "Latest 4.x" w = (Ok 138, w)
  ∧ getKernelName Demo.client 138 w = (Ok "Latest 4.x", w).
Proof.
  intros w.
  destruct (C4_floating_kernel_lookup Demo.client w Demo.kernels1 "Latest 4.x"
              eq_refl eq_refl) as [Hid Hname].
  split; [split; reflexivity|]. split; [exact Hid|].
  exact (Hname 138 {| KernelId := 138; KernelLabel := "Latest 4.x (4.19.86)" |}
           "Latest 4.x" " " "4.19.86" "" eq_refl eq_refl eq_refl eq_refl
           eq_refl eq_refl eq_refl eq_refl).
Defined.

(** C5 as stated fails.  With distinct ids: "Latest 4" is a label of the
    catalog, resolves by prefix to the id of "Latest 4.x (4.19.86)", which
    resolves back to "Latest 4.x".  With a repeated id: the second region
    of that id resolves back to the first one. *)
Lemma C5_round_trip_counterexample :
  let w :=
    Demo.world_cached
      (Demo.remote_catalogs Demo.kernels_prefix Demo.datacenters_same_id) in
  ¬ (∀ kernelName,
       In kernelName (map KernelLabel Demo.kernels_prefix) →
       ∀ id name,
         getKernelID Demo.client kernelName w = (Ok id, w) →
         getKernelName Demo.client id w = (Ok name, w) →
         latestKernelStrip_ReplaceAllString name =
         latestKernelStrip_ReplaceAllString kernelName)
  ∧ ¬ (∀ regionName,
         In regionName (map Location Demo.datacenters_same_id) →
         ∀ id name,
           getRegionID Demo.client regionName w = (Ok id, w) →
           getRegionName Demo.client id w = (Ok name, w) →
           name = regionName).
Proof.
  intros w. split; intros H.
  - specialize (H "Latest 4" (or_intror (or_introl eq_refl)) 1 "Latest 4.x"
                  eq_refl eq_refl).
    discriminate H.
  - specialize (H "Newark, NJ, USA" (or_intror (or_introl eq_refl)) 1
                  "Dallas, TX, USA" eq_refl eq_refl).
    discriminate H.
Qed.

(** C5 on the catalogs of the demonstration system. *)
Lemma C5_round_trip_witness :
  let w := Demo.world_of (Demo.remote_with [] [] [] []) in
  let w1 := (getRegionID Demo.client "Newark, NJ, USA" w).2 in
  getRegionID Demo.client "Newark, NJ, USA" w = (Ok 6, w1)
  ∧ getRegionName Demo.client 6 w1 = (Ok "Newark, NJ, USA", w1).
Proof.
  intros w w1. split; [reflexivity|].
  destruct (C5_round_trip Demo.client w w1) as [Hregion _].
  apply Hregion; [reflexivity|].
  intros r [= <-]. vm_compute. repeat constructor; rewrite ?list_elem_of_In;
    simpl; intuition discriminate.
Defined.

(** ** The job waiters *)

Lemma wrap64_id z : in_int64 z → wrap64 z = z.
Proof.
  unfold in_int64, MinInt64, MaxInt64, wrap64. intros H.
  rewrite Z.mod_small; lia.
Qed.




Section Waiters.

Context {R : Type}.
Variable client : Client R.





End Waiters.




(** ** Resizing *)

Lemma wp_eq {S A} (m : M S A) s r s' :
  wp m s (λ r0 s0, r0 = r ∧ s0 = s') → m s = (r, s').
Proof. unfold wp. destruct (m s). simpl. by intros [-> ->]. Qed.

(** A callee of which the run is known. *)
Ltac wp_by H := eapply wp_run; [exact H|]; cbv beta iota; norm_state.

(** A call of which the answer is known. *)
Ltac wp_answer H :=
  let a := fresh "a" in
  let r := fresh "r" in
  let E := fresh "E" in
  apply wp_call; intros a r E; norm_state; cbn [remote with_remote] in E;
  rewrite H in E; injection E as <- <-; unfold result_of; cbv beta iota;
  norm_state.

(** What the hypotheses say of the next step: the run of a callee, the
    answer of a call, the value of a condition. *)
Ltac wp_known :=
  match goal with
  | H : ?m ?s = (_, _) |- wp ?m ?s _ => wp_by H
  | H : _ = (_, _) |- wp (remote_call _ _) _ _ => wp_answer H
  | H : ?c = _ |- wp (if ?c then _ else _) _ _ => rewrite H
  end.



Section Resize.

Context {R : Type}.
Variable client : Client R.




End Resize.



(** ** Reading back *)

(** An event that is a call of [a] is none of the events [evs], which are
    calls of the methods [l]. *)
Lemma not_among l a ev evs :
  Forall (among l) evs → In ev evs → api_of ev = a →
  bool_decide (a ∈ l) = false → False.
Proof.
  intros Hf Hin Ha Hl. rewrite Forall_forall in Hf.
  apply list_elem_of_In, Hf in Hin. by apply (among_not l a ev).
Qed.

(** Where an event of the trace comes from. *)
Ltac in_trace H :=
  repeat match type of H with
    | In _ (_ ++ _) => apply in_app_or in H as [H|H]
    | In _ (_ :: _) => destruct H as [H|H]
    | In _ [] => destruct H
    end.

Ltac by_among H :=
  exfalso;
  match goal with
  | Hf : Forall (among ?l) ?evs |- _ =>
      match type of H with
      | In ?ev evs => apply (not_among l (api_of ev) ev evs Hf H eq_refl eq_refl)
      end
  end.

Section Read.

Context {R : Type}.
Variable client : Client R.

(** C9, as amended.  When the listing of the instance comes back without
    error and without error payload, but not with exactly one instance,
    [resourceLinodeLinodeRead] clears the id of the resource and hands back
    success, with that listing as its only call: no error is surfaced. *)
Theorem C9_vanished_instance (st : State R) id resp r1 :
  ParseInt (rd_id (data st)) = Some id →
  Linode_List client id (remote (world st)) = (inr resp, r1) →
  Errors resp = [] →
  length (Linodes resp) ≠ 1%nat →
  resourceLinodeLinodeRead client st =
    (Ok tt,
     {| world := with_remote r1 [EvLinodeList id (inr resp)] (world st);
        data := rd_with_id "" (data st) |}).
Proof.
  intros Hid Hlist Herr Hlen. apply wp_eq. unfold resourceLinodeLinodeRead.
  do 2 wp_step. rewrite Hid. do 3 wp_step. wp_answer Hlist.
  rewrite Herr. cbn [length Nat.eqb negb].
  destruct (Linodes resp) as [|linode [|linode' rest]]; [|done|];
    by wp_step.
Qed.


End Read.

(** C9 as stated fails: on a remote system that lists no instance for the
    id and reports no error, the read-back ends in success, not in a
    not-found error. *)
Lemma C9_vanished_instance_counterexample :
  let st :=
    Demo.state_of (Demo.remote_catalogs Demo.kernels1 Demo.datacenters1)
      (Demo.resource "1001" [] []) in
  Linode_List Demo.client 1001 (remote (world st))
    = (inr {| Errors := []; Linodes := [] |}, remote (world st))
  ∧ ¬ ∃ e,
        (resourceLinodeLinodeRead Demo.client st).1 = Err e
        ∧ error_kind e = Some NotFoundError.
Proof.
  intros st. split; [reflexivity|]. intros (e & He & _). discriminate He.
Qed.

(** C9, as amended, on the same system: success, and the id is cleared. *)
Lemma C9_vanished_instance_witness :
  let st :=
    Demo.state_of (Demo.remote_catalogs Demo.kernels1 Demo.datacenters1)
      (Demo.resource "1001" [] []) in
  (resourceLinodeLinodeRead Demo.client st).1 = Ok tt
  ∧ rd_id (data (resourceLinodeLinodeRead Demo.client st).2) = "".
Proof.
  intros st.
  rewrite (C9_vanished_instance Demo.client st 1001
             {| Errors := []; Linodes := [] |} (remote (world st))
             eq_refl eq_refl eq_refl).
  - by split.
  - simpl. lia.
Defined.


(** ** Provisioning *)

Create HintDb frames.

#[global] Hint Resolve changeLinodeSettings_frames changeLinodeConfig_frames
  changeLinodeSize_frames : frames.

#[global] Hint Resolve resourceLinodeLinodeRead_emitsS : emits.

(** A callee that is itself an operation on [d]. *)
Ltac wp_calleeS :=
  lazymatch goal with
  | |- wp _ _ _ =>
      first
        [ eapply wp_frames;
          [ solve [eauto with frames]
          | let r := fresh "r" in
            let st := fresh "st" in
            let H := fresh "Hext" in
            let Ha := fresh "Hattrs" in
            let Hp := fresh "Hprior" in
            norm_state; intros r st H Ha Hp; try destruct r; cbv beta iota ]
        | eapply wp_emitsS;
          [ solve [eauto with emits]
          | let r := fresh "r" in
            let st := fresh "st" in
            let H := fresh "Hext" in
            norm_state; intros r st H; try destruct r; cbv beta iota ] ]
  end.

Ltac wp_all := repeat first [wp_known | wp_step | wp_callee | wp_calleeS].



Lemma get_int_attrs d d' key :
  attrs d' = attrs d → get_int d' key = get_int d key.
Proof. unfold get_int. by intros ->. Qed.

Section Create.

Context {R : Type}.
Variable client : Client R.


End Create.

(** ** Updating *)


Section Update.

Context {R : Type}.
Variable client : Client R.


Lemma no_updates : (0 <? size (∅ : gmap string string))%nat = false.
Proof. reflexivity. Qed.


End Update.

(** ** The operations on the demonstration system *)




(** C8 fails on the code: errors of remote calls that are dropped.
    - [changeLinodeSize], when the resize call fails: the run goes on and
      ends in success.
    - [changeLinodeSize], when the listing of the disks fails: the check of
      C1 reads the total as -1, and the resize is called although the disks
      (40960 MB) do not fit the target plan (20480 MB).
    - [resourceLinodeLinodeCreate], when the boot call fails: the run goes
      on and ends in success. *)
Theorem C8_errors_dropped :
  let failure : answer unit := inl (ApiError "remote failure") in
  let resize bad disks size :=
    changeLinodeSize Demo.client 1 Demo.linode1
      (Demo.state_of
         (Demo.remote_with disks [Demo.config1 true true] [Demo.done_job] bad)
         (Demo.resource "1001" [("size", VInt size)] [])) in
  let create :=
    resourceLinodeLinodeCreate Demo.client 1
      (Demo.state_of
         (Demo.remote_with [Demo.root_disk 9728; Demo.swap_disk 512]
            [Demo.config1 true true] [Demo.done_job] [LinodeBoot])
         (Demo.resource ""
            [("region", VString "Dallas, TX, USA"); ("size", VInt 1024);
             ("swap_size", VInt 512); ("image", VString "Debian 8");
             ("kernel", VString "Latest 4.x")] [])) in
  ((resize [LinodeResize] [Demo.root_disk 10240] 2048).1 = Ok tt
   ∧ In (EvLinodeResize 1001 2 failure)
        (trace (world (resize [LinodeResize] [Demo.root_disk 10240] 2048).2)))
  ∧ ((resize [DiskList] [Demo.root_disk 40960] 1024).1 = Ok tt
     ∧ In (EvDiskList 1001 (-1) (inl (ApiError "remote failure")))
          (trace (world (resize [DiskList] [Demo.root_disk 40960] 1024).2))
     ∧ In (EvLinodeResize 1001 1 (inr tt))
          (trace (world (resize [DiskList] [Demo.root_disk 40960] 1024).2)))
  ∧ (create.1 = Ok tt
     ∧ In (EvLinodeBoot 1001 7001 failure) (trace (world create.2))).
Proof.
  intros failure resize create.
  split; [split | split; [split; [|split] | split]].
  - vm_compute. reflexivity.
  - apply (nth_error_In _ 2). vm_compute. reflexivity.
  - vm_compute. reflexivity.
  - apply (nth_error_In _ 1). vm_compute. reflexivity.
  - apply (nth_error_In _ 2). vm_compute. reflexivity.
  - vm_compute. reflexivity.
  - apply (nth_error_In _ 12). vm_compute. reflexivity.
Qed.

(** * Further properties of the code *)

(** ** Decimal identifiers

    [d.SetId] stores the id of the instance as [fmt.Sprintf("%d", id)];
    the other operations read it back with [strconv.ParseInt]. *)

Lemma parse_digits_uint u acc :
  parse_digits acc (NilEmpty.string_of_uint u) = Some (uint_value acc u).
Proof.
  revert acc. induction u; intros acc; simpl; [done|..]; apply IHu.
Qed.

Lemma uint_value_acc u (acc : positive) :
  uint_value (Z.pos acc) u = Z.pos (Pos.of_uint_acc u acc).
Proof.
  revert acc. induction u; intros acc; simpl; [done|..];
    rewrite <- IHu; f_equal; lia.
Qed.

Lemma uint_value_of_uint u : uint_value 0 u = Z.of_N (Pos.of_uint u).
Proof.
  induction u; simpl; [done | exact IHu |..];
    match goal with
    | |- uint_value ?z _ = _ => change z with (Z.pos (Z.to_pos z))
    end; by rewrite uint_value_acc.
Qed.

Lemma parse_digits_to_uint p :
  parse_digits 0 (NilEmpty.string_of_uint (Pos.to_uint p)) = Some (Z.pos p).
Proof.
  rewrite parse_digits_uint, uint_value_of_uint.
  by rewrite DecimalPos.Unsigned.of_to.
Qed.

Lemma all_digits_uint u : all_chars is_digit (NilEmpty.string_of_uint u) = true.
Proof. induction u; simpl; [done|..]; exact IHu. Qed.

Lemma string_of_uint_nonnil u :
  u ≠ Decimal.Nil →
  NilZero.string_of_uint u = NilEmpty.string_of_uint u
  ∧ NilEmpty.string_of_uint u ≠ EmptyString.
Proof. by destruct u. Qed.

Lemma Itoa_pos p : Itoa (Z.pos p) = NilEmpty.string_of_uint (Pos.to_uint p).
Proof.
  unfold Itoa. simpl.
  by destruct (string_of_uint_nonnil _ (DecimalPos.Unsigned.to_uint_nonnil p)).
Qed.

Lemma Itoa_neg p :
  Itoa (Z.neg p) = String "-" (NilEmpty.string_of_uint (Pos.to_uint p)).
Proof.
  unfold Itoa. simpl.
  by destruct (string_of_uint_nonnil _ (DecimalPos.Unsigned.to_uint_nonnil p))
    as [-> _].
Qed.

Lemma Itoa_digits z :
  0 ≤ z → all_chars is_digit (Itoa z) = true ∧ Itoa z ≠ EmptyString.
Proof.
  destruct z as [|p|p]; [done | | lia]. intros _. rewrite Itoa_pos.
  split; [apply all_digits_uint|].
  by destruct (string_of_uint_nonnil _ (DecimalPos.Unsigned.to_uint_nonnil p)).
Qed.

Lemma ParseInt_digit c t :
  is_digit c = true →
  ParseInt (String c t) =
    match parse_digits 0 (String c t) with
    | Some n =>
        if (MinInt64 <=? 1 * n) && (1 * n <=? MaxInt64) then Some (1 * n)
        else None
    | None => None
    end.
Proof.
  destruct c as [[] [] [] [] [] [] [] []]; try discriminate; reflexivity.
Qed.

(** What [fmt.Sprintf("%d", z)] writes, [strconv.ParseInt] reads back. *)
Lemma ParseInt_Itoa z : in_int64 z → ParseInt (Itoa z) = Some z.
Proof.
  unfold in_int64. intros Hz. destruct z as [|p|p]; [done | |].
  - rewrite Itoa_pos.
    pose proof (parse_digits_to_uint p) as Hp.
    pose proof (all_digits_uint (Pos.to_uint p)) as Hd.
    destruct (string_of_uint_nonnil _ (DecimalPos.Unsigned.to_uint_nonnil p))
      as [_ Hne].
    destruct (NilEmpty.string_of_uint (Pos.to_uint p)) as [|c t]; [done|].
    apply andb_true_iff in Hd as [Hc _].
    rewrite (ParseInt_digit c t Hc), Hp.
    replace (1 * Z.pos p) with (Z.pos p) by lia.
    destruct (Z.leb_spec MinInt64 (Z.pos p)); [|lia].
    destruct (Z.leb_spec (Z.pos p) MaxInt64); [done | lia].
  - rewrite Itoa_neg.
    pose proof (parse_digits_to_uint p) as Hp.
    destruct (string_of_uint_nonnil _ (DecimalPos.Unsigned.to_uint_nonnil p))
      as [_ Hne].
    unfold ParseInt.
    destruct (NilEmpty.string_of_uint (Pos.to_uint p)) as [|c t]; [done|].
    rewrite Hp. replace (-1 * Z.pos p) with (Z.neg p) by lia.
    destruct (Z.leb_spec MinInt64 (Z.neg p)); [|lia].
    destruct (Z.leb_spec (Z.neg p) MaxInt64); [done | lia].
Qed.

(** ** The disks *)

Lemma wrap64_add_l a b : wrap64 (wrap64 a + b) = wrap64 (a + b).
Proof.
  unfold wrap64. f_equal.
  replace ((a + 2 ^ 63) mod 2 ^ 64 - 2 ^ 63 + b + 2 ^ 63)
    with ((a + 2 ^ 63) mod 2 ^ 64 + b) by lia.
  rewrite Z.add_mod_idemp_l by lia. f_equal. lia.
Qed.

Lemma totalDiskSize_fold disks a :
  fold_left (λ totalDiskSize dk, add64 totalDiskSize (Size dk)) disks (wrap64 a)
  = wrap64 (a + sum_sizes disks).
Proof.
  revert a. induction disks as [|dk disks IH]; intros a; simpl.
  - f_equal. lia.
  - unfold add64 at 2. rewrite wrap64_add_l, IH. f_equal. lia.
Qed.

Lemma totalDiskSize_sum disks : totalDiskSize disks = wrap64 (sum_sizes disks).
Proof. apply (totalDiskSize_fold disks 0). Qed.

Lemma sum_sizes_perm disks disks' :
  Permutation disks disks' → sum_sizes disks = sum_sizes disks'.
Proof. induction 1; simpl; lia. Qed.

Lemma sum_sizes_app l l' : sum_sizes (l ++ l') = sum_sizes l + sum_sizes l'.
Proof. induction l; simpl; lia. Qed.

Lemma sum_sizes_nonneg disks :
  Forall (λ dk, 0 ≤ Size dk) disks → 0 ≤ sum_sizes disks.
Proof. induction 1; simpl; lia. Qed.

Lemma biggestDisk_snoc disks dk :
  biggestDisk (disks ++ [dk]) =
    if Size dk >? (biggestDisk disks).2 then (DiskId dk, Size dk)
    else biggestDisk disks.
Proof. unfold biggestDisk. by rewrite fold_left_app. Qed.

(** The biggest disk is the first one of the greatest size, when that size
    is positive. *)
Lemma biggestDisk_first disks :
  (Forall (λ dk, Size dk ≤ 0) disks ∧ biggestDisk disks = (0, 0))
  ∨ ∃ pre dk post,
      disks = pre ++ dk :: post
      ∧ biggestDisk disks = (DiskId dk, Size dk)
      ∧ 0 < Size dk
      ∧ Forall (λ x, Size x < Size dk) pre
      ∧ Forall (λ x, Size x ≤ Size dk) post.
Proof.
  induction disks as [|x disks IH] using rev_ind.
  - left. by split.
  - rewrite biggestDisk_snoc.
    destruct IH as [[Hall Hb]|(pre & dk & post & -> & Hb & Hpos & Hpre & Hpost)].
    + rewrite Hb. simpl. destruct (Z.gtb_spec (Size x) 0) as [Hx|Hx].
      * right. exists disks, x, []. repeat split; try done.
        eapply Forall_impl; [exact Hall|]. simpl. intros; lia.
      * left. split; [|done]. apply Forall_app. split; [done|].
        by repeat constructor.
    + rewrite Hb. simpl. destruct (Z.gtb_spec (Size x) (Size dk)) as [Hx|Hx].
      * right. exists (pre ++ dk :: post), x, []. repeat split; try done; [lia|].
        apply Forall_app. split.
        -- eapply Forall_impl; [exact Hpre|]. simpl. intros; lia.
        -- constructor; [lia|].
           eapply Forall_impl; [exact Hpost|]. simpl. intros; lia.
      * right. exists pre, dk, (post ++ [x]). repeat split; try done.
        -- by rewrite <- app_assoc.
        -- apply Forall_app. split; [done|]. by repeat constructor.
Qed.

Lemma biggestDisk_le_sum disks :
  Forall (λ dk, 0 ≤ Size dk) disks →
  0 ≤ (biggestDisk disks).2 ≤ sum_sizes disks.
Proof.
  intros Hall.
  destruct (biggestDisk_first disks)
    as [[_ ->]|(pre & dk & post & -> & -> & Hpos & _ & _)]; simpl.
  - pose proof (sum_sizes_nonneg _ Hall). lia.
  - apply Forall_app in Hall as [Hpre Hpost].
    apply Forall_cons in Hpost as [_ Hpost].
    rewrite sum_sizes_app. simpl.
    pose proof (sum_sizes_nonneg _ Hpre). pose proof (sum_sizes_nonneg _ Hpost).
    lia.
Qed.

Lemma last_that_snoc {A} (p : A → bool) l x :
  last_that p (l ++ [x]) = if p x then Some x else last_that p l.
Proof.
  unfold last_that. rewrite List.filter_app. simpl. destruct (p x).
  - apply last_snoc.
  - by rewrite app_nil_r.
Qed.

Lemma splitIps_last ips :
  splitIps ips =
    (default EmptyString
       (IPAddress <$> last_that (λ ip, IsPublic ip =? 1) ips),
     default EmptyString
       (IPAddress <$> last_that (λ ip, negb (IsPublic ip =? 1)) ips)).
Proof.
  unfold splitIps. induction ips as [|ip ips IH] using rev_ind; [done|].
  rewrite fold_left_app, IH, !last_that_snoc. simpl.
  by destruct (IsPublic ip =? 1).
Qed.

Lemma root_and_swap_last disks :
  root_and_swap disks =
    (default 0 (DiskId <$>
       last_that (λ dk, negb (EqualFold_swap (DiskType dk))) disks),
     default 0 (DiskId <$>
       last_that (λ dk, EqualFold_swap (DiskType dk)) disks)).
Proof.
  unfold root_and_swap. induction disks as [|dk disks IH] using rev_ind; [done|].
  rewrite fold_left_app, IH, !last_that_snoc. simpl.
  by destruct (EqualFold_swap (DiskType dk)).
Qed.

Lemma swap_size_of_last disks :
  swap_size_of disks =
    default 0 (Size <$> last_that (λ dk, EqualFold_swap (DiskType dk)) disks).
Proof.
  unfold swap_size_of. induction disks as [|dk disks IH] using rev_ind; [done|].
  rewrite fold_left_app, IH, !last_that_snoc. simpl.
  by destruct (EqualFold_swap (DiskType dk)).
Qed.

(** ** The pattern, on a label without parenthesis *)

Lemma no_lparen_skip_space s :
  no_lparen s = true → no_lparen (skip_space s) = true.
Proof.
  induction s as [|c s IH]; [done|]. intros H. simpl.
  destruct (is_space c); [|done].
  rewrite no_lparen_String in H. apply andb_true_iff in H as [_ H]. auto.
Qed.

Lemma match_at_no_lparen s : no_lparen s = true → match_at s = None.
Proof.
  intros H. apply no_lparen_skip_space in H. unfold match_at.
  destruct (skip_space s) as [|c s']; [done|].
  rewrite no_lparen_String in H. apply andb_true_iff in H as [H _].
  apply negb_true_iff in H. by rewrite H.
Qed.

Lemma strip_from_no_lparen n s : no_lparen s = true → strip_from n s = s.
Proof.
  revert s. induction n as [|n IH]; intros s H; [done|]. simpl.
  rewrite (match_at_no_lparen s H). destruct s as [|c s]; [done|].
  rewrite no_lparen_String in H. apply andb_true_iff in H as [_ H].
  by rewrite IH.
Qed.

(** ** The label of the image disk *)

Lemma all_chars_impl (p q : ascii → bool) s :
  (∀ c, p c = true → q c = true) → all_chars p s = true → all_chars q s = true.
Proof.
  intros Hpq. induction s as [|c s IH]; [done|]. simpl.
  intros [Hc Hs]%andb_true_iff. rewrite (Hpq c Hc). auto.
Qed.

Lemma all_chars_app p s t :
  all_chars p (s +:+ t) = all_chars p s && all_chars p t.
Proof.
  induction s as [|c s IH]; [done|]. rewrite append_String. simpl.
  by rewrite IH, andb_assoc.
Qed.

Lemma append_assoc (s t u : string) : (s +:+ t) +:+ u = s +:+ t +:+ u.
Proof.
  induction s as [|c s IH]; [done|]. rewrite !append_String. by rewrite IH.
Qed.

Lemma grabId_at_other c s :
  Ascii.eqb c "B" = false → grabId_at (String c s) = None.
Proof.
  destruct c as [[] [] [] [] [] [] [] []]; try discriminate; reflexivity.
Qed.

Lemma grabId_Find_String c s :
  grabId_FindStringSubmatch (String c s) =
    match grabId_at (String c s) with
    | Some group => Some group
    | None => grabId_FindStringSubmatch s
    end.
Proof. reflexivity. Qed.

(** No match starts inside of a text without the letter B. *)
Lemma grabId_skip pre s :
  all_chars (λ c, negb (Ascii.eqb c "B")) pre = true →
  grabId_FindStringSubmatch (pre +:+ s) = grabId_FindStringSubmatch s.
Proof.
  induction pre as [|c pre IH]; [done|]. simpl all_chars.
  intros [Hc Hpre]%andb_true_iff. apply negb_true_iff in Hc.
  rewrite append_String, grabId_Find_String, (grabId_at_other c _ Hc). auto.
Qed.

Lemma span_digits_app ds c rest :
  all_chars is_digit ds = true → is_digit c = false →
  span_digits (ds +:+ String c rest) = (ds, String c rest).
Proof.
  intros Hds Hc. induction ds as [|d ds IH].
  - rewrite append_empty. simpl. by rewrite Hc.
  - simpl in Hds. apply andb_true_iff in Hds as [Hd Hds].
    rewrite append_String. simpl. rewrite Hd, (IH Hds). done.
Qed.

Lemma grabId_at_Base ds rest :
  all_chars is_digit ds = true → ds ≠ EmptyString →
  grabId_at ("Base(" +:+ ds +:+ ")" +:+ rest) = Some ds.
Proof.
  intros Hds Hne. rewrite !append_String, !append_empty. simpl.
  rewrite (span_digits_app ds ")" rest Hds eq_refl). by destruct ds.
Qed.

Lemma not_B_digit c : is_digit c = true → negb (Ascii.eqb c "B") = true.
Proof. destruct c as [[] [] [] [] [] [] [] []]; try discriminate; reflexivity. Qed.

Lemma Itoa_not_B z : all_chars (λ c, negb (Ascii.eqb c "B")) (Itoa z) = true.
Proof.
  destruct z as [|p|p]; [done | |].
  - rewrite Itoa_pos. eapply all_chars_impl; [exact not_B_digit|].
    apply all_digits_uint.
  - rewrite Itoa_neg. simpl. eapply all_chars_impl; [exact not_B_digit|].
    apply all_digits_uint.
Qed.

(** The pattern finds, in the label that [deployImage] gives the disk of an
    image, the id of that image in decimal. *)
Lemma grabId_deploy_label linodeId imageId :
  0 ≤ imageId →
  grabId_FindStringSubmatch
    ("Root(" +:+ Itoa linodeId +:+ ")__Base(" +:+ Itoa imageId +:+ ")")
  = Some (Itoa imageId).
Proof.
  intros Hi. destruct (Itoa_digits imageId Hi) as [Hd Hne].
  change (")__Base(" +:+ Itoa imageId +:+ ")")
    with (")__" +:+ "Base(" +:+ Itoa imageId +:+ ")" +:+ EmptyString).
  rewrite <- (append_assoc (Itoa linodeId)), <- (append_assoc "Root(").
  rewrite grabId_skip.
  - destruct (Itoa imageId) as [|d ds] eqn:E; [done|].
    pose proof (grabId_at_Base (String d ds) EmptyString Hd Hne) as H.
    destruct ("Base(" +:+ String d ds +:+ ")" +:+ EmptyString) eqn:E'; [done|].
    by rewrite grabId_Find_String, H.
  - rewrite !all_chars_app, Itoa_not_B. reflexivity.
Qed.

Lemma substring_prefix s t : String.substring 0 (String.length s) (s +:+ t) = s.
Proof.
  induction s as [|c s IH]; [by destruct t|]. rewrite append_String. simpl.
  by rewrite IH.
Qed.

Lemma substring_suffix s t :
  String.substring (String.length s) (String.length t) (s +:+ t) = t.
Proof.
  induction s as [|c s IH]; [|by rewrite append_String].
  rewrite append_empty. simpl. induction t as [|c t IH]; [done|].
  simpl. by rewrite IH.
Qed.

Lemma HasSuffix_append s t : HasSuffix (s +:+ t) t = true.
Proof.
  unfold HasSuffix. rewrite length_append.
  replace (String.length s + String.length t - String.length t)%nat
    with (String.length s) by lia.
  rewrite substring_suffix, String.eqb_refl, andb_true_r.
  apply Nat.leb_le. lia.
Qed.

Lemma labels_map (disks : list Disk) :
  fold_left (λ disks dk, disks ++ [DiskLabel dk]) disks [] = map DiskLabel disks.
Proof.
  enough (∀ acc,
    fold_left (λ disks dk, disks ++ [DiskLabel dk]) disks acc
    = acc ++ map DiskLabel disks) as H by apply H.
  induction disks as [|dk disks IH]; intros acc; simpl.
  - by rewrite app_nil_r.
  - by rewrite IH, <- app_assoc.
Qed.

Lemma findImage_prebuilt_find prebuilt imageName :
  findImage_prebuilt prebuilt imageName =
    DistributionId <$>
      find (λ p, String.eqb (DistributionLabel p) imageName) prebuilt.
Proof.
  induction prebuilt as [|p prebuilt IH]; simpl; [done|].
  by destruct (String.eqb (DistributionLabel p) imageName).
Qed.

Lemma findImage_custom_find customImages imageName :
  findImage_custom customImages imageName =
    ImageId <$>
      find (λ c, String.eqb (ImageLabel c) imageName
                 || String.eqb (Itoa (ImageId c)) imageName) customImages.
Proof.
  induction customImages as [|c customImages IH]; simpl; [done|].
  destruct (String.eqb (ImageLabel c) imageName); [done|]. simpl.
  by destruct (String.eqb (Itoa (ImageId c)) imageName).
Qed.

(** ** More rules for runs *)

Lemma wp_mono {S A} (m : M S A) s (P Q : result A → S → Prop) :
  wp m s P → (∀ r s', P r s' → Q r s') → wp m s Q.
Proof. unfold wp. auto. Qed.

Lemma wp_steady {R A} G (m : M (State R) A) st Q :
  steady G m →
  (∀ r st', extends G (world st) (world st') →
     rd_id (data st') = rd_id (data st) →
     partial (data st') = partial (data st) →
     Q r st') →
  wp m st Q.
Proof. intros Hm HQ. destruct (Hm st) as (? & ? & ?). by apply HQ. Qed.

Lemma steady_wp {R A} G (m : M (State R) A) :
  (∀ st, wp m st (λ _ st',
     extends G (world st) (world st')
     ∧ rd_id (data st') = rd_id (data st)
     ∧ partial (data st') = partial (data st))) →
  steady G m.
Proof. done. Qed.

Lemma wp_no_panic {S A} (m : M S A) s Q :
  no_panic m →
  (∀ r s', (∀ msg, r ≠ Panic msg) → Q r s') →
  wp m s Q.
Proof. intros Hm HQ. apply HQ. intros msg. apply Hm. Qed.

Lemma no_panic_wp {S A} (m : M S A) :
  (∀ s, wp m s (λ r _, ∀ msg, r ≠ Panic msg)) → no_panic m.
Proof. intros H s msg. apply H. Qed.

Lemma has_change_partial b d key :
  has_change (rd_with_partial b d) key = has_change d key.
Proof. reflexivity. Qed.

Lemma get_bool_partial b d key :
  get_bool (rd_with_partial b d) key = get_bool d key.
Proof. reflexivity. Qed.

Lemma has_change_partial_keys l d key :
  has_change (rd_with_partial_keys l d) key = has_change d key.
Proof. reflexivity. Qed.

Lemma get_bool_partial_keys l d key :
  get_bool (rd_with_partial_keys l d) key = get_bool d key.
Proof. reflexivity. Qed.

Lemma has_change_frames d d' key :
  attrs d' = attrs d → prior d' = prior d →
  has_change d' key = has_change d key.
Proof. unfold has_change. by intros -> ->. Qed.

Lemma get_bool_attrs d d' key :
  attrs d' = attrs d → get_bool d' key = get_bool d key.
Proof. unfold get_bool. by intros ->. Qed.

Lemma updates_nonempty {V} (key : string) (v : V) (m : gmap string V) :
  (0 <? size (<[key := v]> m))%nat = true.
Proof.
  apply Nat.ltb_lt. destruct (size (<[key := v]> m)) eqn:E; [|lia].
  apply map_size_empty_iff in E. by apply insert_non_empty in E.
Qed.

Lemma updates_empty {V} : (0 <? size (∅ : gmap string V))%nat = false.
Proof. by rewrite map_size_empty. Qed.

(** The calls [l] are none of the calls [avoid]. *)
Lemma among_avoids l (avoid : list Api) evs :
  forallb (λ a, negb (bool_decide (a ∈ l))) avoid = true →
  Forall (among l) evs →
  Forall (λ ev, api_of ev ∉ avoid) evs.
Proof.
  intros Hl Hf. eapply Forall_impl; [exact Hf|]. intros ev Hev Hin.
  rewrite forallb_forall in Hl. apply list_elem_of_In, Hl in Hin.
  apply negb_true_iff, bool_decide_eq_false in Hin. by apply Hin.
Qed.

(** What a condition on [d.HasChange] and [d.Get] is worth, from what is
    known of the state the operation started from. *)
Ltac back_to_start :=
  rewrite ?has_change_partial_keys, ?get_bool_partial_keys,
    ?has_change_partial, ?get_bool_partial;
  repeat match goal with
    | Ha : attrs (data ?s) = attrs ?d, Hp : prior (data ?s) = prior ?d
      |- context [has_change (data ?s) ?k] =>
        rewrite (has_change_frames d (data s) k Ha Hp)
    | Ha : attrs (data ?s) = attrs ?d |- context [get_bool (data ?s) ?k] =>
        rewrite (get_bool_attrs d (data s) k Ha)
    end;
  rewrite ?has_change_partial_keys, ?get_bool_partial_keys,
    ?has_change_partial, ?get_bool_partial.

(** A branch on a condition of which the value is known. *)
Ltac wp_cond :=
  lazymatch goal with
  | |- wp (if _ then _ else _) _ _ =>
      progress
        (back_to_start;
         repeat match goal with
           | H : has_change ?d ?k = _ |- context [has_change ?d ?k] => rewrite H
           | H : get_bool ?d ?k = _ |- context [get_bool ?d ?k] => rewrite H
           end;
         cbv beta iota; rewrite ?no_updates; cbn [orb andb negb];
         cbv beta iota)
  end.

Ltac wp_pruning :=
  repeat first [wp_cond | wp_known | wp_step | wp_callee | wp_calleeS].

Ltac forall_among_vm :=
  repeat first
    [ assumption
    | match goal with
      | |- Forall _ [] => constructor
      | |- Forall _ (_ :: _) => constructor
      | |- Forall _ (_ ++ _) => apply Forall_app; split
      end
    | (eapply Forall_impl; [eassumption|]; intros ? ?;
       eapply among_weaken; [|eassumption]; vm_compute; reflexivity)
    | among_tac ].

Ltac solve_extends_vm :=
  first
    [ apply extends_refl
    | open_extends; eexists; split; [trace_eq | forall_among_vm] ].

(** An event that stands in the trace, segment by segment. *)
Ltac in_segments :=
  solve [ repeat first
            [ (apply in_or_app; left; left; reflexivity)
            | (left; reflexivity)
            | (apply in_or_app; right) ] ].

Create HintDb steady.
Create HintDb no_panic.

(** A callee of which it is known that it does not panic. *)
Ltac wp_sound :=
  lazymatch goal with
  | |- wp _ _ _ =>
      eapply wp_no_panic;
      [ solve [eauto with no_panic]
      | let r := fresh "r" in
        let s := fresh "s" in
        let H := fresh "Hsound" in
        intros r s H; destruct r as [?|?|?|];
        [ | | exfalso; by eapply H | ]; cbv beta iota; norm_state ]
  end.

Ltac no_panic_leaf :=
  first [ by intros ? | exfalso; simpl in *; congruence ].

Ltac no_panic_run := repeat first [wp_step | wp_sound].

(** ** The reference catalogs, again *)

Section Lookups.

Context {R : Type}.
Variable client : Client R.

Ltac case_matches :=
  repeat match goal with
    | |- context [match ?x with _ => _ end] => destruct x eqn:?
    end.

Ltac memo_tac cache fetch :=
  let w := fresh "w" in
  let Hc := fresh "Hc" in
  let Hf := fresh "Hf" in
  unfold memoized; intros w;
  unfold mbind, M_bind, load, store, remote_call, mret, M_ret, fail, panic;
  cbn beta iota;
  destruct (cache w) eqn:Hc;
  [ cbn beta iota; rewrite ?Hc; split;
    [ intros _; by case_matches
    | case_matches; simpl; congruence ]
  | split; [intros [? ?]; congruence|];
    destruct (fetch (remote w)) as [[?|?] ?] eqn:Hf; cbn;
    [ intros _; eauto
    | case_matches; simpl; congruence ] ].

(** X13. Every lookup in the kernel, region and plan catalogs answers from
    the package-level cache when it is loaded: it makes no call and leaves
    the run as it found it.  After a lookup the cache is still empty
    only when the call that fetches the catalog failed, and then the lookup
    ended in the error of that call: a catalog that was fetched stays
    loaded, also when the entry was not found, and a failed fetch is not
    remembered. *)
Theorem X13_catalogs_memoized :
  (∀ kernelId,
     memoized kernelList (Avail_Kernels client) (getKernelName client kernelId))
  ∧ (∀ kernelName,
       memoized kernelList (Avail_Kernels client)
         (getKernelID client kernelName))
  ∧ (∀ regionId,
       memoized regionList (Avail_DataCenters client)
         (getRegionName client regionId))
  ∧ (∀ regionName,
       memoized regionList (Avail_DataCenters client)
         (getRegionID client regionName))
  ∧ (∀ size,
       memoized sizeList (Avail_LinodePlans client) (getSizeId client size))
  ∧ (∀ sizeId,
       memoized sizeList (Avail_LinodePlans client) (getSize client sizeId))
  ∧ (∀ planID,
       memoized sizeList (Avail_LinodePlans client)
         (getPlanDiskSize client planID)).
Proof.
  repeat apply conj.
  - intros x. unfold getKernelName, getKernelList.
    memo_tac (@kernelList R) (Avail_Kernels client).
  - intros x. unfold getKernelID, getKernelList.
    memo_tac (@kernelList R) (Avail_Kernels client).
  - intros x. unfold getRegionName, getRegionList.
    memo_tac (@regionList R) (Avail_DataCenters client).
  - intros x. unfold getRegionID, getRegionList.
    memo_tac (@regionList R) (Avail_DataCenters client).
  - intros x. unfold getSizeId, getSizeList.
    memo_tac (@sizeList R) (Avail_LinodePlans client).
  - intros x. unfold getSize, getSizeList.
    memo_tac (@sizeList R) (Avail_LinodePlans client).
  - intros x. unfold getPlanDiskSize, getSizeList.
    memo_tac (@sizeList R) (Avail_LinodePlans client).
Qed.

(** X14. With the kernel catalog loaded, [getKernelName] hands back the
    label of the first entry of the given id as it stands in the catalog
    when that label does not begin with "Latest", and also when it does but
    holds no opening parenthesis: the qualifier is the only thing ever
    taken off. *)
Theorem X14_kernel_label_kept (w : World R) k kernelId ki :
  kernelList w = Some k →
  find (λ ki, KernelId ki =? kernelId) k = Some ki →
  HasPrefix (KernelLabel ki) "Latest" = false
  ∨ no_lparen (KernelLabel ki) = true →
  getKernelName client kernelId w = (Ok (KernelLabel ki), w).
Proof.
  intros Hk Hfind Hlabel.
  rewrite (getKernelName_cached client w k kernelId Hk).
  rewrite getKernelName_loop_find, Hfind. simpl.
  destruct (HasPrefix (KernelLabel ki) "Latest") eqn:Hlatest; [|done].
  destruct Hlabel as [|Hp]; [done|].
  unfold latestKernelStrip_ReplaceAllString.
  by rewrite (strip_from_no_lparen _ _ Hp).
Qed.

End Lookups.

(** X14 on the catalog of the demonstration system: the kernel of id 92
    comes back under its label. *)
Lemma X14_kernel_label_kept_witness :
  let w := Demo.world_cached (Demo.remote_with [] [] [] []) in
  (kernelList w = Some Demo.kernels1
   ∧ HasPrefix "2.6.18.8-linode22" "Latest" = false)
  ∧ getKernelName Demo.client 92 w = (Ok "2.6.18.8-linode22", w).
Proof.
  intros w. split; [split; reflexivity|].
  exact (X14_kernel_label_kept Demo.client w Demo.kernels1 92
           {| KernelId := 92; KernelLabel := "2.6.18.8-linode22" |}
           eq_refl eq_refl (or_introl eq_refl)).
Defined.

(** ** The disks and the addresses of an instance *)

Section Disks.

Context {R : Type}.
Variable client : Client R.

(** X15. [getTotalDiskSize] hands back the error of the disk listing as it
    is, and otherwise the sum of the sizes of the listed disks reduced to 64
    bits: the sum itself when it fits, and the same total in whatever order
    the disks are listed. *)
Theorem X15_getTotalDiskSize (w : World R) linodeID :
  match Disk_List client linodeID (-1) (remote w) with
  | (inl e, r') =>
      getTotalDiskSize client linodeID w =
        (Err e, with_remote r' [EvDiskList linodeID (-1) (inl e)] w)
  | (inr disks, r') =>
      getTotalDiskSize client linodeID w =
        (Ok (wrap64 (sum_sizes disks)),
         with_remote r' [EvDiskList linodeID (-1) (inr disks)] w)
      ∧ (in_int64 (sum_sizes disks) → wrap64 (sum_sizes disks) = sum_sizes disks)
      ∧ ∀ disks', Permutation disks disks' →
          totalDiskSize disks' = totalDiskSize disks
  end.
Proof.
  unfold getTotalDiskSize, mbind, M_bind, remote_call.
  destruct (Disk_List client linodeID (-1) (remote w)) as [[e|disks] r'];
    [done|].
  split; [|split].
  - simpl. by rewrite totalDiskSize_sum.
  - apply wrap64_id.
  - intros disks' Hperm.
    by rewrite !totalDiskSize_sum, (sum_sizes_perm _ _ Hperm).
Qed.

(** X16. [getBiggestDisk] hands back the error of the disk listing as it
    is, and otherwise the id and the size of the first listed disk of the
    greatest size, provided that size is positive; when no disk has a
    positive size (no disk at all, for one) it hands back id 0 and size 0,
    without error. *)
Theorem X16_getBiggestDisk (w : World R) linodeID :
  match Disk_List client linodeID (-1) (remote w) with
  | (inl e, r') =>
      getBiggestDisk client linodeID w =
        (Err e, with_remote r' [EvDiskList linodeID (-1) (inl e)] w)
  | (inr disks, r') =>
      ∃ biggestDiskID biggestDiskSize,
        getBiggestDisk client linodeID w =
          (Ok (biggestDiskID, biggestDiskSize),
           with_remote r' [EvDiskList linodeID (-1) (inr disks)] w)
        ∧ (Forall (λ dk, Size dk ≤ 0) disks
           ∧ biggestDiskID = 0 ∧ biggestDiskSize = 0
           ∨ ∃ pre dk post,
               disks = pre ++ dk :: post
               ∧ biggestDiskID = DiskId dk ∧ biggestDiskSize = Size dk
               ∧ 0 < Size dk
               ∧ Forall (λ x, Size x < Size dk) pre
               ∧ Forall (λ x, Size x ≤ Size dk) post)
  end.
Proof.
  unfold getBiggestDisk, mbind, M_bind, remote_call.
  destruct (Disk_List client linodeID (-1) (remote w)) as [[e|disks] r'];
    [done|].
  exists (biggestDisk disks).1, (biggestDisk disks).2. split.
  - simpl. by destruct (biggestDisk disks).
  - destruct (biggestDisk_first disks)
      as [[Hall ->]|(pre & dk & post & Hd & -> & Hrest)]; [by left|].
    right. by exists pre, dk, post.
Qed.

(** X18. [getIps] hands back the error of the address listing as it is, and
    otherwise, as the public address, the last listed address that is
    flagged public and, as the private address, the last listed address that
    is not; the empty string where there is none. *)
Theorem X18_getIps (w : World R) linodeId :
  match Ip_List client linodeId (-1) (remote w) with
  | (inl e, r') =>
      getIps client linodeId w =
        (Err e, with_remote r' [EvIpList linodeId (-1) (inl e)] w)
  | (inr ips, r') =>
      getIps client linodeId w =
        (Ok (default EmptyString
               (IPAddress <$> last_that (λ ip, IsPublic ip =? 1) ips),
             default EmptyString
               (IPAddress <$> last_that (λ ip, negb (IsPublic ip =? 1)) ips)),
         with_remote r' [EvIpList linodeId (-1) (inr ips)] w)
  end.
Proof.
  unfold getIps, mbind, M_bind, remote_call.
  destruct (Ip_List client linodeId (-1) (remote w)) as [[e|ips] r']; [done|].
  simpl. by rewrite splitIps_last.
Qed.

End Disks.

(** X17. The size that [changeLinodeSize] asks for the biggest disk, when
    the total and the biggest disk are taken from one listing of disks of
    sizes 0 or more whose sum fits 64 bits and does not exceed the storage
    of the new plan: the disk never shrinks, and after the expansion the
    disks add up to the storage of the plan exactly. *)
Theorem X17_expansion_fills_plan (disks : list Disk) (newDiskSize : Z) :
  Forall (λ dk, 0 ≤ Size dk) disks →
  in_int64 (sum_sizes disks) →
  in_int64 newDiskSize →
  totalDiskSize disks ≤ newDiskSize →
  let currentDiskSize := totalDiskSize disks in
  let biggestDiskSize := (biggestDisk disks).2 in
  let expandedDiskSize :=
    sub64 newDiskSize (sub64 currentDiskSize biggestDiskSize) in
  biggestDiskSize ≤ expandedDiskSize
  ∧ currentDiskSize - biggestDiskSize + expandedDiskSize = newDiskSize.
Proof.
  intros Hpos Hsum Hnew Hfits. cbv zeta.
  rewrite totalDiskSize_sum, (wrap64_id _ Hsum) in *.
  pose proof (biggestDisk_le_sum disks Hpos) as Hbig.
  unfold sub64. unfold in_int64, MinInt64, MaxInt64 in *.
  rewrite (wrap64_id (sum_sizes disks - (biggestDisk disks).2))
    by (unfold in_int64, MinInt64, MaxInt64; lia).
  rewrite wrap64_id by (unfold in_int64, MinInt64, MaxInt64; lia).
  lia.
Qed.

(** X17 on a root disk of 10240 MB and a swap disk of 512 MB, for a plan of
    40960 MB: the root disk grows to 40448 MB. *)
Lemma X17_expansion_fills_plan_witness :
  let disks := [Demo.root_disk 10240; Demo.swap_disk 512] in
  (Forall (λ dk, 0 ≤ Size dk) disks ∧ in_int64 (sum_sizes disks)
   ∧ in_int64 40960 ∧ totalDiskSize disks ≤ 40960)
  ∧ sub64 40960 (sub64 (totalDiskSize disks) (biggestDisk disks).2) = 40448
  ∧ 10240 ≤ 40448
  ∧ totalDiskSize disks - 10240 + 40448 = 40960.
Proof.
  intros disks.
  assert (Forall (λ dk, 0 ≤ Size dk) disks) as H1
    by (repeat constructor; simpl; lia).
  assert (in_int64 (sum_sizes disks)) as H2 by (vm_compute; split; discriminate).
  assert (in_int64 40960) as H3 by (vm_compute; split; discriminate).
  assert (totalDiskSize disks ≤ 40960) as H4 by (vm_compute; discriminate).
  split; [by repeat split|].
  destruct (X17_expansion_fills_plan disks 40960 H1 H2 H3 H4) as [Hle Hsum].
  split; [reflexivity|]. split; [exact Hle | exact Hsum].
Defined.

(** X24. The disks that [resourceLinodeLinodeCreate] puts in the boot
    configuration and the swap size that [resourceLinodeLinodeRead] reports:
    the swap disk is the last listed disk whose type is "swap" in any
    letter case, the root disk the last listed disk of another type, and the
    swap size the size of that swap disk; 0 stands for a disk that is not
    there.  A root disk and a swap disk are told apart in either order of
    the listing. *)
Theorem X24_disk_roles (disks : list Disk) :
  let is_swap dk := EqualFold_swap (DiskType dk) in
  root_and_swap disks =
    (default 0 (DiskId <$> last_that (λ dk, negb (is_swap dk)) disks),
     default 0 (DiskId <$> last_that is_swap disks))
  ∧ swap_size_of disks = default 0 (Size <$> last_that is_swap disks)
  ∧ ∀ root swap,
      is_swap root = false → is_swap swap = true →
      root_and_swap [root; swap] = (DiskId root, DiskId swap)
      ∧ root_and_swap [swap; root] = (DiskId root, DiskId swap)
      ∧ root_and_swap [root] = (DiskId root, 0).
Proof.
  cbv zeta. split; [apply root_and_swap_last|].
  split; [apply swap_size_of_last|].
  intros root swap Hroot Hswap. unfold root_and_swap. simpl.
  by rewrite Hroot, Hswap.
Qed.

(** ** Images *)

Section Images.

Context {R : Type}.
Variable client : Client R.

Lemma getImage_run (w : World R) id disks r' :
  Disk_List client id (-1) (remote w) = (inr disks, r') →
  getImage client id w =
    (if negb (length disks =? 2)%nat then
       Err (Errorf "Found %d disks attached to linode %s. This plugin can only handle exactly 2.")
     else
       match getImage_loop (map DiskLabel disks) with
       | Some image => Ok image
       | None => Err (Errorf "Unable to find the image based on the disk names")
       end,
     with_remote r' [EvDiskList id (-1) (inr disks)] w).
Proof.
  intros Hlist. unfold getImage, getDisks, mbind, M_bind, remote_call.
  rewrite Hlist. destruct (negb _); [done|]. simpl.
  rewrite labels_map. by destruct (getImage_loop _).
Qed.

(** X12. [getImage] reads the image of an instance off the labels of its
    disks.  The error of the disk listing comes back as it is.  An instance
    that has not exactly two disks gives the error "Found %d disks ...".
    With two disks, when one of them carries the label that [deployImage]
    writes, Root(<instance id>)__Base(<image id>), for an image id of 0 or
    more, the answer is that image id in decimal, be that disk listed first,
    or second behind a disk whose label neither matches the pattern nor ends
    in " Disk".  A first disk labelled <name> Disk, without a match of the
    pattern, gives <name>. *)
Theorem X12_getImage (w : World R) id :
  match Disk_List client id (-1) (remote w) with
  | (inl e, r') =>
      getImage client id w =
        (Err e, with_remote r' [EvDiskList id (-1) (inl e)] w)
  | (inr disks, r') =>
      (length disks ≠ 2%nat →
       (getImage client id w).1 =
         Err (Errorf "Found %d disks attached to linode %s. This plugin can only handle exactly 2."))
      ∧ (∀ root other linodeId imageId,
           0 ≤ imageId →
           DiskLabel root =
             "Root(" +:+ Itoa linodeId +:+ ")__Base(" +:+ Itoa imageId +:+ ")" →
           disks = [root; other]
           ∨ (disks = [other; root]
              ∧ grabId_FindStringSubmatch (DiskLabel other) = None
              ∧ HasSuffix (DiskLabel other) " Disk" = false) →
           (getImage client id w).1 = Ok (Itoa imageId))
      ∧ (∀ first other name,
           disks = [first; other] →
           DiskLabel first = name +:+ " Disk" →
           grabId_FindStringSubmatch (DiskLabel first) = None →
           (getImage client id w).1 = Ok name)
  end.
Proof.
  destruct (Disk_List client id (-1) (remote w)) as [[e|disks] r'] eqn:Hlist.
  { unfold getImage, getDisks, mbind, M_bind, remote_call. by rewrite Hlist. }
  rewrite (getImage_run w id disks r' Hlist). simpl.
  split; [|split].
  - intros Hlen. by apply Nat.eqb_neq in Hlen as ->.
  - intros root other linodeId imageId Hi Hlabel [->|(-> & Hno & Hsuf)]; simpl.
    + by rewrite Hlabel, (grabId_deploy_label linodeId imageId Hi).
    + by rewrite Hno, Hsuf, Hlabel, (grabId_deploy_label linodeId imageId Hi).
  - intros first other name -> Hlabel Hno. simpl. rewrite Hno, Hlabel.
    rewrite HasSuffix_append, length_append. simpl.
    replace (String.length name + 5 - 5)%nat with (String.length name) by lia.
    by rewrite substring_prefix.
Qed.

(** X19. [findImage] asks for the distributions first: the first
    distribution whose label is the name wins, and then the private images
    are not listed at all.  Failing that, the first private image whose
    label is the name, or whose id in decimal is the name, is found; when
    there is none the error is "Failed to find image %s".  The error of
    either listing comes back as it is. *)
Theorem X19_findImage (w : World R) imageName :
  match Avail_Distributions client (remote w) with
  | (inl e, r1) =>
      findImage client imageName w =
        (Err e, with_remote r1 [EvAvailDistributions (inl e)] w)
  | (inr prebuilt, r1) =>
      let w1 := with_remote r1 [EvAvailDistributions (inr prebuilt)] w in
      match find (λ p, String.eqb (DistributionLabel p) imageName) prebuilt with
      | Some p =>
          findImage client imageName w = (Ok (PREBUILT, DistributionId p), w1)
      | None =>
          match Image_List client r1 with
          | (inl e, r2) =>
              findImage client imageName w =
                (Err e, with_remote r2 [EvImageList (inl e)] w1)
          | (inr customImages, r2) =>
              findImage client imageName w =
                (match find (λ c, String.eqb (ImageLabel c) imageName
                                  || String.eqb (Itoa (ImageId c)) imageName)
                         customImages with
                 | Some c => Ok (CUSTOM_IMAGE, ImageId c)
                 | None => Err (Errorf "Failed to find image %s")
                 end,
                 with_remote r2 [EvImageList (inr customImages)] w1)
          end
      end
  end.
Proof.
  unfold findImage, mbind, M_bind, remote_call.
  destruct (Avail_Distributions client (remote w)) as [[e|prebuilt] r1];
    [done|].
  cbv zeta. rewrite findImage_prebuilt_find.
  destruct (find _ prebuilt) as [p|]; [done|]. simpl.
  destruct (Image_List client r1) as [[e|customImages] r2]; [done|].
  rewrite findImage_custom_find. by destruct (find _ customImages).
Qed.

(** X20. [deployImage] creates nothing when the image is not found: the
    error of [findImage] comes back as it is.  Every disk it creates, from a
    distribution or from a private image, is a disk of the given instance
    and of the given size, carries the given key and password, and has a
    label in which the pattern of [getImage] finds the id of the image in
    decimal, for an image id of 0 or more. *)
Theorem X20_deploy_image fuel (linode : Linode) imageName diskSize key password
    (w : World R) :
  (∀ e w1,
     findImage client imageName w = (Err e, w1) →
     deployImage client fuel linode imageName diskSize key password w
       = (Err e, w1))
  ∧ ∃ evs,
      trace (deployImage client fuel linode imageName diskSize key password
               w).2
        = trace w ++ evs
      ∧ ∀ imageId linodeId label size args a,
          In (EvDiskCreateFromDistribution imageId linodeId label size args a)
             evs
          ∨ In (EvDiskCreateFromImage imageId linodeId label size args a) evs →
          linodeId = LinodeId linode ∧ size = diskSize
          ∧ args !! "rootSSHKey" = Some key
          ∧ args !! "rootPass" = Some password
          ∧ (0 ≤ imageId →
             grabId_FindStringSubmatch label = Some (Itoa imageId)).
Proof.
  split.
  { intros e w1 Hfind. unfold deployImage, mbind, M_bind. by rewrite Hfind. }
  change (wp (deployImage client fuel linode imageName diskSize key password) w
    (λ _ w',
      ∃ evs,
        trace w' = trace w ++ evs
        ∧ ∀ imageId linodeId label size args a,
            In (EvDiskCreateFromDistribution imageId linodeId label size args a)
               evs
            ∨ In (EvDiskCreateFromImage imageId linodeId label size args a) evs →
            linodeId = LinodeId linode ∧ size = diskSize
            ∧ args !! "rootSSHKey" = Some key
            ∧ args !! "rootPass" = Some password
            ∧ (0 ≤ imageId →
               grabId_FindStringSubmatch label = Some (Itoa imageId)))).
  unfold deployImage.
  wp_auto; open_extends; (eexists; split; [trace_eq|]);
    intros imageId' linodeId' label' size' args' a' [Hin|Hin]; in_trace Hin;
    try discriminate Hin; try by_among Hin.
  all: injection Hin as <- <- <- <- <- <-.
  all: repeat split; try done; apply grabId_deploy_label.
Qed.

End Images.

(** X12 on the disks that a provisioning run leaves behind, the swap disk
    listed first: the image is the distribution 140. *)
Lemma X12_getImage_witness :
  let w :=
    Demo.world_of
      (Demo.remote_with [Demo.swap_disk 512; Demo.root_disk 9728] [] [] []) in
  (getImage Demo.client 1001 w).1 = Ok "140".
Proof.
  intros w. pose proof (X12_getImage Demo.client w 1001) as H.
  destruct H as (_ & Hroot & _).
  apply (Hroot (Demo.root_disk 9728) (Demo.swap_disk 512) 1001 140);
    [vm_compute; discriminate | reflexivity |].
  right. repeat split; reflexivity.
Defined.

(** ** The job waiters, again *)

Section Polls.

Context {R : Type}.
Variable client : Client R.

Lemma wait_loop_spaced fuel linodeId start deadline timeout (w : World R) :
  ∃ evs,
    trace (wait_loop client fuel linodeId start deadline timeout w).2
      = trace w ++ evs
    ∧ polls_spaced linodeId evs = true.
Proof.
  revert w. induction fuel as [|fuel IH]; intros w.
  - exists []. by rewrite app_nil_r.
  - simpl. unfold mbind, M_bind, remote_call.
    destruct (Job_List client linodeId (-1) false (remote w)) as [[e|jobs] r1].
    + eexists. split; [reflexivity|]. simpl. by rewrite Z.eqb_refl.
    + destruct (jobs_complete jobs).
      * eexists. split; [reflexivity|]. simpl. by rewrite Z.eqb_refl.
      * unfold time_Sleep, time_Since, store, load, fail. cbn beta iota.
        match goal with
        | |- context [if ?c then _ else _] => destruct c
        end.
        -- cbn [snd trace with_remote]. rewrite <- app_assoc.
           eexists. split; [reflexivity|]. simpl. by rewrite Z.eqb_refl.
        -- match goal with
           | |- context [wait_loop _ _ _ _ _ _ ?w2] =>
               destruct (IH w2) as (evs & Ht & Hs)
           end.
           rewrite Ht. cbn [trace with_remote]. rewrite <- !app_assoc. eexists.
           split; [reflexivity|]. simpl. by rewrite Z.eqb_refl, Hs.
Qed.

(** X21. Both job waiters: when the first poll of the job list fails, the
    waiter ends at once in the error of that poll, unwrapped, with that
    poll as its only event, no sleep and no second try.  And whatever
    happens, the events of a waiter are polls of the job list of its
    instance (all jobs, not only the pending ones) with a sleep of exactly
    one second after each poll that is followed by anything: it never polls
    twice in a row and never sleeps for another time. *)
Theorem X21_waiters_poll (linodeId waitMinutes : Z) (fuel : nat) (w : World R) :
  (∀ e r',
     Job_List client linodeId (-1) false (remote w) = (inl e, r') →
     let w' := with_remote r' [EvJobList linodeId (-1) false (inl e)] w in
     waitForJobsToComplete client (S fuel) linodeId w = (Err e, w')
     ∧ waitForJobsToCompleteWaitMinutes client (S fuel) linodeId waitMinutes w
       = (Err e, w'))
  ∧ (∃ evs,
       trace (waitForJobsToComplete client fuel linodeId w).2 = trace w ++ evs
       ∧ polls_spaced linodeId evs = true)
  ∧ (∃ evs,
       trace (waitForJobsToCompleteWaitMinutes client fuel linodeId
                waitMinutes w).2 = trace w ++ evs
       ∧ polls_spaced linodeId evs = true).
Proof.
  split; [|split].
  - intros e r' Hpoll w'.
    unfold waitForJobsToComplete, waitForJobsToCompleteWaitMinutes.
    unfold mbind, M_bind, time_Now, load. cbn beta iota. simpl.
    unfold mbind, M_bind, remote_call. by rewrite Hpoll.
  - unfold waitForJobsToComplete, mbind, M_bind, time_Now, load.
    cbn beta iota. apply wait_loop_spaced.
  - unfold waitForJobsToCompleteWaitMinutes, mbind, M_bind, time_Now, load.
    cbn beta iota. apply wait_loop_spaced.
Qed.

End Polls.

(** ** The reconciliation steps, again *)

Section Reconciling.

Context {R : Type}.
Variable client : Client R.

Lemma changeLinodeSettings_steady linode :
  steady (among [LinodeUpdate]) (changeLinodeSettings client linode).
Proof.
  apply steady_wp. intros st. unfold changeLinodeSettings.
  wp_auto; solve_frames.
Qed.

Lemma changeLinodeConfig_steady config :
  steady (among [ConfigUpdate]) (changeLinodeConfig client config).
Proof.
  apply steady_wp. intros st. unfold changeLinodeConfig.
  wp_auto; solve_frames.
Qed.

Lemma changeLinodeSize_steady fuel linode :
  steady
    (among [AvailLinodePlans; DiskList; LinodeResize; JobList; Sleep;
            DiskResize; LinodeBoot])
    (changeLinodeSize client fuel linode).
Proof.
  apply steady_wp. intros st. unfold changeLinodeSize.
  wp_auto; solve_frames.
Qed.

(** X22. [changeLinodeSettings] compares the group and the name that [d]
    holds with those of the instance as the remote system listed it.  When
    both agree it makes no call.  Otherwise it makes exactly one call,
    the update of that instance, with the group if the group differs, the
    name if the name differs, and nothing else.  When the call fails the
    error comes back wrapped and [d] is as it was; otherwise the keys
    "group" and "name" are marked as stored. *)
Theorem X22_changeLinodeSettings (linode : Linode) (st : State R) :
  let d := data st in
  let run := changeLinodeSettings client linode st in
  ∃ evs,
    trace (world run.2) = trace (world st) ++ evs
    ∧ (evs = [] ↔
       get_string d "group" = LpmDisplayGroup linode
       ∧ get_string d "name" = Label linode)
    ∧ (∀ ev, In ev evs →
        ∃ args a,
          evs = [ev]
          ∧ ev = EvLinodeUpdate (LinodeId linode) args a
          ∧ args !! "lpm_displayGroup" =
              (if bool_decide (get_string d "group" = LpmDisplayGroup linode)
               then None else Some (VString (get_string d "group")))
          ∧ args !! "Label" =
              (if bool_decide (get_string d "name" = Label linode)
               then None else Some (VString (get_string d "name")))
          ∧ ∀ key, key ≠ "lpm_displayGroup" → key ≠ "Label" →
              args !! key = None)
    ∧ (run.1 = Ok tt
       ∧ partial_keys (data run.2) = partial_keys d ++ ["group"; "name"]
       ∨ (∃ e,
            run.1 =
              Err (ErrorfBecause
                     "Failed to update the linode's group because %s" e))
         ∧ data run.2 = d).
Proof.
  cbv zeta. unfold changeLinodeSettings, mbind, M_bind, getd, because, liftW,
    remote_call, d_SetPartial, modd, mret, M_ret. cbn beta iota.
  unfold id.
  destruct (decide (get_string (data st) "group" = LpmDisplayGroup linode))
    as [Hg|Hg];
    destruct (decide (get_string (data st) "name" = Label linode)) as [Hn|Hn].
  all: rewrite ?(bool_decide_eq_false_2 _ (λ H, H Hg)),
         ?(bool_decide_eq_false_2 _ (λ H, H Hn)),
         ?(bool_decide_eq_true_2 _ Hg), ?(bool_decide_eq_true_2 _ Hn),
         ?(bool_decide_eq_true_2 (_ ≠ _) Hg),
         ?(bool_decide_eq_true_2 (_ ≠ _) Hn),
         ?(bool_decide_eq_false_2 _ Hg), ?(bool_decide_eq_false_2 _ Hn);
       cbn beta iota; rewrite ?updates_nonempty, ?updates_empty; cbn beta iota.
  1: { exists []. split; [by rewrite app_nil_r|]. split; [done|].
       split; [by intros ev []|]. left. split; [done|].
       simpl. by rewrite <- app_assoc. }
  all: match goal with
       | |- context [Linode_Update ?c ?a ?u ?r] =>
           destruct (Linode_Update c a u r) as [[e|[]] r'] eqn:Hcall
       end; cbn.
  all: eexists; (split; [reflexivity|]);
         (split; [split; [done | by intros []]|]).
  all: split;
         [ intros ev [<-|[]]; eexists _, _; (split; [reflexivity|]);
           (split; [reflexivity|]);
           repeat split; try (by simplify_map_eq);
           intros key Hk1 Hk2; by simplify_map_eq
         | first [ left; split; [reflexivity|]; by rewrite <- app_assoc
                 | right; split; [eauto | reflexivity] ] ].
Qed.

(** X23. [changeLinodeConfig] makes no call when neither helper flag has
    changed in [d].  Otherwise it makes exactly one call, the update of the
    given boot configuration, under the id, the instance and the kernel that
    the configuration already has, with the distro helper if that flag has
    changed, the network helper (from the key
    "manage_private_ip_automatically") if that one has, and nothing else:
    the kernel of a configuration is never changed. *)
Theorem X23_changeLinodeConfig (config : LinodeConfig) (st : State R) :
  let d := data st in
  let run := changeLinodeConfig client config st in
  ∃ evs,
    trace (world run.2) = trace (world st) ++ evs
    ∧ (evs = [] ↔
       has_change d "helper_distro" = false
       ∧ has_change d "manage_private_ip_automatically" = false)
    ∧ ∀ ev, In ev evs →
        ∃ args a,
          evs = [ev]
          ∧ ev = EvConfigUpdate (ConfigId config) (ConfigLinodeId config)
                   (ConfigKernelId config) args a
          ∧ args !! "helper_distro" =
              (if has_change d "helper_distro"
               then Some (boolToString (get_bool d "helper_distro"))
               else None)
          ∧ args !! "helper_network" =
              (if has_change d "manage_private_ip_automatically"
               then Some (boolToString
                            (get_bool d "manage_private_ip_automatically"))
               else None)
          ∧ ∀ key, key ≠ "helper_distro" → key ≠ "helper_network" →
              args !! key = None.
Proof.
  cbv zeta. unfold changeLinodeConfig, mbind, M_bind, getd, because, liftW,
    remote_call, d_SetPartial, modd, mret, M_ret. cbn beta iota.
  unfold id.
  destruct (has_change (data st) "helper_distro") eqn:Hd;
    destruct (has_change (data st) "manage_private_ip_automatically") eqn:Hm;
    cbn beta iota; rewrite ?updates_nonempty, ?updates_empty; cbn beta iota.
  4: { exists []. split; [by rewrite app_nil_r|]. split; [done|].
       by intros ev []. }
  all: match goal with
       | |- context [Config_Update ?c ?a ?b ?k ?u ?r] =>
           destruct (Config_Update c a b k u r) as [[e|[]] r'] eqn:Hcall
       end; cbn.
  all: eexists; (split; [reflexivity|]); (split; [by split; [|intros []]|]).
  all: intros ev [<-|[]]; eexists _, _; (split; [reflexivity|]);
         (split; [reflexivity|]).
  all: repeat split; try by simplify_map_eq.
  all: intros key Hk1 Hk2; by simplify_map_eq.
Qed.

End Reconciling.

#[global] Hint Resolve changeLinodeSettings_steady changeLinodeConfig_steady
  changeLinodeSize_steady : steady.

(** ** Reading back, again *)

Section Reading.

Context {R : Type}.
Variable client : Client R.

Lemma Read_spec (st : State R) :
  wp (resourceLinodeLinodeRead client) st (λ r st',
    extends (among read_calls) (world st) (world st')
    ∧ prior (data st') = prior (data st)
    ∧ partial (data st') = partial (data st)
    ∧ partial_keys (data st') = partial_keys (data st)
    ∧ (rd_id (data st') = rd_id (data st)
       ∨ rd_id (data st') = EmptyString ∧ r = Ok tt
         ∧ attrs (data st') = attrs (data st))).
Proof.
  unfold resourceLinodeLinodeRead, read_calls.
  wp_auto; (split; [solve_extends|]); repeat split; auto.
Qed.

(** X4. A read-back only reads: every call it makes is a listing (of the
    instance, its addresses, disks and boot configurations) or the fetching
    of a catalog.  In [d] it leaves the prior state, the partial mode and
    the keys marked as stored alone; the id of the resource stays, or is
    cleared, and where it is cleared the read-back ends in success and
    has written no attribute. *)
Theorem X4_read_only (st : State R) :
  ∃ evs,
    trace (world (resourceLinodeLinodeRead client st).2)
      = trace (world st) ++ evs
    ∧ Forall (among read_calls) evs
    ∧ prior (data (resourceLinodeLinodeRead client st).2) = prior (data st)
    ∧ partial (data (resourceLinodeLinodeRead client st).2)
        = partial (data st)
    ∧ partial_keys (data (resourceLinodeLinodeRead client st).2)
        = partial_keys (data st)
    ∧ (rd_id (data (resourceLinodeLinodeRead client st).2) = rd_id (data st)
       ∨ rd_id (data (resourceLinodeLinodeRead client st).2) = EmptyString
         ∧ (resourceLinodeLinodeRead client st).1 = Ok tt
         ∧ attrs (data (resourceLinodeLinodeRead client st).2)
             = attrs (data st)).
Proof.
  destruct (Read_spec st) as ((evs & Ht & Hf) & Hrest).
  exists evs. split; [exact Ht|]. split; [exact Hf | exact Hrest].
Qed.


End Reading.

(** A callee that is an operation on [d], of which the heed for the id and
    the partial mode is known. *)
Ltac wp_calleeD :=
  lazymatch goal with
  | |- wp (resourceLinodeLinodeRead _) _ _ =>
      let r := fresh "r" in
      let st := fresh "st" in
      let H := fresh "Hext" in
      let Hp := fresh "Hprior" in
      let Hm := fresh "Hpartial" in
      let Hk := fresh "Hkeys" in
      let Hi := fresh "Hid" in
      eapply wp_mono; [apply Read_spec|];
      norm_state; intros r st (H & Hp & Hm & Hk & Hi); cbv beta iota
  | |- wp _ _ _ =>
      eapply wp_steady;
      [ solve [eauto with steady]
      | let r := fresh "r" in
        let st := fresh "st" in
        let H := fresh "Hext" in
        let Hi := fresh "Hid" in
        let Hm := fresh "Hpartial" in
        norm_state; intros r st H Hi Hm; try destruct r; cbv beta iota ]
  end.

Ltac wp_run_all := repeat first [wp_known | wp_step | wp_callee | wp_calleeD].


(** ** Run-time panics *)

Section Sound.

Context {R : Type}.
Variable client : Client R.

Ltac lookup_sound :=
  apply no_panic_wp; intros w;
  unfold getKernelName, getKernelID, getKernelList, getRegionName,
    getRegionID, getRegionList, getSizeId, getSize, getPlanDiskSize,
    getSizeList;
  repeat wp_step; no_panic_leaf.

Lemma getKernelName_sound x : no_panic (getKernelName client x).
Proof. lookup_sound. Qed.

Lemma getKernelID_sound x : no_panic (getKernelID client x).
Proof. lookup_sound. Qed.

Lemma getRegionName_sound x : no_panic (getRegionName client x).
Proof. lookup_sound. Qed.

Lemma getRegionID_sound x : no_panic (getRegionID client x).
Proof. lookup_sound. Qed.

Lemma getSizeId_sound x : no_panic (getSizeId client x).
Proof. lookup_sound. Qed.

Lemma getSize_sound x : no_panic (getSize client x).
Proof. lookup_sound. Qed.

Lemma getPlanDiskSize_sound x : no_panic (getPlanDiskSize client x).
Proof. lookup_sound. Qed.

Lemma getIps_sound x : no_panic (getIps client x).
Proof.
  apply no_panic_wp; intros w. unfold getIps. repeat wp_step; no_panic_leaf.
Qed.

Lemma getTotalDiskSize_sound x : no_panic (getTotalDiskSize client x).
Proof.
  apply no_panic_wp; intros w. unfold getTotalDiskSize.
  repeat wp_step; no_panic_leaf.
Qed.

Lemma getBiggestDisk_sound x : no_panic (getBiggestDisk client x).
Proof.
  apply no_panic_wp; intros w. unfold getBiggestDisk.
  repeat wp_step; no_panic_leaf.
Qed.

Lemma wait_loop_sound fuel linodeId start deadline timeout :
  no_panic (wait_loop client fuel linodeId start deadline timeout).
Proof.
  induction fuel as [|fuel IH]; apply no_panic_wp; intros w; simpl.
  - repeat wp_step; no_panic_leaf.
  - repeat first [wp_step | (eapply wp_no_panic; [exact IH|]; intros ? ? ?)];
      no_panic_leaf || done.
Qed.

#[local] Hint Resolve wait_loop_sound : no_panic.

Lemma waitForJobsToComplete_sound fuel linodeId :
  no_panic (waitForJobsToComplete client fuel linodeId).
Proof.
  apply no_panic_wp; intros w. unfold waitForJobsToComplete.
  no_panic_run; no_panic_leaf.
Qed.

Lemma waitForJobsToCompleteWaitMinutes_sound fuel linodeId waitMinutes :
  no_panic (waitForJobsToCompleteWaitMinutes client fuel linodeId waitMinutes).
Proof.
  apply no_panic_wp; intros w. unfold waitForJobsToCompleteWaitMinutes.
  no_panic_run; no_panic_leaf.
Qed.

#[local] Hint Resolve waitForJobsToComplete_sound
  waitForJobsToCompleteWaitMinutes_sound getSizeId_sound
  getTotalDiskSize_sound getPlanDiskSize_sound getBiggestDisk_sound
  : no_panic.

(** [findImage] hands back one of the two image types, so that the third
    branch of [deployImage] is never taken. *)
Lemma deployImage_sound fuel linode imageName diskSize key password :
  no_panic (deployImage client fuel linode imageName diskSize key password).
Proof.
  apply no_panic_wp; intros w. unfold deployImage, findImage.
  no_panic_run; try no_panic_leaf.
  all: exfalso; simplify_eq; done.
Qed.

Lemma changeLinodeSettings_sound linode :
  no_panic (changeLinodeSettings client linode).
Proof.
  apply no_panic_wp; intros st. unfold changeLinodeSettings.
  no_panic_run; no_panic_leaf.
Qed.

Lemma changeLinodeConfig_sound config :
  no_panic (changeLinodeConfig client config).
Proof.
  apply no_panic_wp; intros st. unfold changeLinodeConfig.
  no_panic_run; no_panic_leaf.
Qed.

Lemma changeLinodeSize_sound fuel linode :
  no_panic (changeLinodeSize client fuel linode).
Proof.
  apply no_panic_wp; intros st. unfold changeLinodeSize.
  no_panic_run; no_panic_leaf.
Qed.

#[local] Hint Resolve getKernelName_sound getKernelID_sound
  getRegionName_sound getRegionID_sound getSize_sound getIps_sound
  deployImage_sound changeLinodeSettings_sound changeLinodeConfig_sound
  changeLinodeSize_sound : no_panic.

Lemma resourceLinodeLinodeRead_sound :
  no_panic (resourceLinodeLinodeRead client).
Proof.
  apply no_panic_wp; intros st. unfold resourceLinodeLinodeRead.
  no_panic_run; no_panic_leaf.
Qed.

#[local] Hint Resolve resourceLinodeLinodeRead_sound : no_panic.

(** X11. The run-time panics of the code are the reading of a catalog
    that is not loaded, the "Invalid image type returned" of [deployImage],
    and the indexing of an empty listing.  No run of the read-back, of the
    provisioning, of the deletion, of a resize or of the deployment of an
    image ends in one: a catalog is loaded before it is read, and
    [findImage] hands back one of the two image types only.  A run of the
    update ends in a panic in one case only: the id parses and the listing
    of the instance answered, without error, no instance at all, whose
    first element the update takes without looking at the length. *)
Theorem X11_no_panic :
  no_panic (resourceLinodeLinodeRead client)
  ∧ (∀ fuel, no_panic (resourceLinodeLinodeCreate client fuel))
  ∧ no_panic (resourceLinodeLinodeDelete client)
  ∧ (∀ fuel linode, no_panic (changeLinodeSize client fuel linode))
  ∧ (∀ fuel linode imageName diskSize key password,
       no_panic
         (deployImage client fuel linode imageName diskSize key password))
  ∧ ∀ fuel (st : State R) msg,
      (resourceLinodeLinodeUpdate client fuel st).1 = Panic msg →
      ∃ id resp r1,
        ParseInt (rd_id (data st)) = Some id
        ∧ Linode_List client id (remote (world st)) = (inr resp, r1)
        ∧ Linodes resp = [].
Proof.
  split; [apply resourceLinodeLinodeRead_sound|].
  split.
  { intros fuel. apply no_panic_wp; intros st.
    unfold resourceLinodeLinodeCreate.
    no_panic_run; no_panic_leaf. }
  split.
  { apply no_panic_wp; intros st. unfold resourceLinodeLinodeDelete.
    no_panic_run; no_panic_leaf. }
  split; [intros; apply changeLinodeSize_sound|].
  split; [intros; apply deployImage_sound|].
  intros fuel st msg.
  change (wp (resourceLinodeLinodeUpdate client fuel) st (λ r _,
    r = Panic msg →
    ∃ id resp r1,
      ParseInt (rd_id (data st)) = Some id
      ∧ Linode_List client id (remote (world st)) = (inr resp, r1)
      ∧ Linodes resp = [])).
  unfold resourceLinodeLinodeUpdate.
  no_panic_run; intros Hp; try discriminate Hp.
  all: by eauto 10.
Qed.

End Sound.

(** ** The id of the resource *)

Section Identifiers.

Context {R : Type}.
Variable client : Client R.

(** X1. The id that the provisioning stores, the decimal of the id of the
    instance, is read back as that id: on a resource whose id is the decimal
    of a 64-bit number, the read-back and the update begin with the listing
    of the instance of that number, and the deletion makes one call, the
    deletion of that instance with the checks skipped. *)
Theorem X1_id_round_trip (st : State R) (id : Z) (fuel : nat) :
  in_int64 id →
  rd_id (data st) = Itoa id →
  (∃ a evs,
     trace (world (resourceLinodeLinodeRead client st).2)
       = trace (world st) ++ EvLinodeList id a :: evs)
  ∧ (∃ a evs,
       trace (world (resourceLinodeLinodeUpdate client fuel st).2)
         = trace (world st) ++ EvLinodeList id a :: evs)
  ∧ (∃ a,
       trace (world (resourceLinodeLinodeDelete client st).2)
         = trace (world st) ++ [EvLinodeDelete id true a]).
Proof.
  intros Hrange Hrd.
  assert (ParseInt (rd_id (data st)) = Some id) as Hid
    by (rewrite Hrd; by apply ParseInt_Itoa).
  split; [|split].
  - change (wp (resourceLinodeLinodeRead client) st (λ _ st',
      ∃ a evs, trace (world st') = trace (world st) ++ EvLinodeList id a :: evs)).
    unfold resourceLinodeLinodeRead. do 2 wp_step. rewrite Hid.
    wp_auto; open_extends; eexists _, _; trace_eq.
  - change (wp (resourceLinodeLinodeUpdate client fuel) st (λ _ st',
      ∃ a evs, trace (world st') = trace (world st) ++ EvLinodeList id a :: evs)).
    unfold resourceLinodeLinodeUpdate. do 4 wp_step. rewrite Hid.
    wp_all; open_extends; eexists _, _; trace_eq.
  - change (wp (resourceLinodeLinodeDelete client) st (λ _ st',
      ∃ a, trace (world st') = trace (world st) ++ [EvLinodeDelete id true a])).
    unfold resourceLinodeLinodeDelete. do 2 wp_step. rewrite Hid.
    wp_auto; eexists; reflexivity.
Qed.

(** X2. On a resource whose id is no decimal 64-bit number (the empty id
    that a read-back leaves behind when the instance is gone, for one) the
    read-back, the update and the deletion make no call and end in their
    parse errors; the update has by then turned the partial mode on, and
    nothing else of [d] has changed. *)
Theorem X2_unparsable_id (st : State R) (fuel : nat) :
  ParseInt (rd_id (data st)) = None →
  resourceLinodeLinodeRead client st =
    (Err (ErrorfBecause "Failed to parse %s as int because %s"
            (ParseError (rd_id (data st)))), st)
  ∧ resourceLinodeLinodeUpdate client fuel st =
      (Err (ErrorfBecause "Failed to parse linode id %s as an int because %s"
              (ParseError (rd_id (data st)))),
       {| world := world st; data := rd_with_partial true (data st) |})
  ∧ resourceLinodeLinodeDelete client st =
      (Err (Errorf "Failed to parse linode id %d as int"), st).
Proof.
  intros Hid. split; [|split]; apply wp_eq.
  - unfold resourceLinodeLinodeRead. do 2 wp_step. rewrite Hid.
    wp_step. by destruct st.
  - unfold resourceLinodeLinodeUpdate. do 4 wp_step. rewrite Hid.
    by wp_step.
  - unfold resourceLinodeLinodeDelete. do 2 wp_step. rewrite Hid.
    wp_step. by destruct st.
Qed.

(** X10. The deletion of a resource whose id parses makes exactly one call,
    the deletion of that instance with the checks skipped, and hands back
    success or the error of that call, wrapped.  It writes nothing to [d]:
    the id of the resource stays as it is. *)
Theorem X10_delete (st : State R) :
  match ParseInt (rd_id (data st)) with
  | None =>
      resourceLinodeLinodeDelete client st =
        (Err (Errorf "Failed to parse linode id %d as int"), st)
  | Some id =>
      match Linode_Delete client id true (remote (world st)) with
      | (a, r') =>
          resourceLinodeLinodeDelete client st =
            (match a with
             | inl e =>
                 Err (ErrorfBecause "Failed to delete linode %d because %s" e)
             | inr _ => Ok tt
             end,
             {| world := with_remote r' [EvLinodeDelete id true a] (world st);
                data := data st |})
      end
  end.
Proof.
  unfold resourceLinodeLinodeDelete, mbind, M_bind, getd.
  destruct (ParseInt (rd_id (data st))) as [id|]; [|done].
  unfold because, liftW, remote_call.
  destruct (Linode_Delete client id true (remote (world st))) as [a r'].
  by destruct a as [e|[]].
Qed.

End Identifiers.

(** X1 on the demonstration system, for the id "1001". *)
Lemma X1_id_round_trip_witness :
  let st :=
    Demo.state_of
      (Demo.remote_with [Demo.root_disk 10240; Demo.swap_disk 512]
         [Demo.config1 true true] [Demo.done_job] [])
      (Demo.resource "1001" [] []) in
  (in_int64 1001 ∧ rd_id (data st) = Itoa 1001)
  ∧ ∃ a,
      trace (world (resourceLinodeLinodeDelete Demo.client st).2)
        = [EvLinodeDelete 1001 true a].
Proof.
  intros st.
  assert (in_int64 1001) as Hrange by (vm_compute; split; discriminate).
  assert (rd_id (data st) = Itoa 1001) as Hid by reflexivity.
  split; [by split|].
  destruct (X1_id_round_trip Demo.client st 1001 0 Hrange Hid)
    as (_ & _ & a & Hdel).
  exists a. exact Hdel.
Defined.

(** X2 on a resource whose id was cleared. *)
Lemma X2_unparsable_id_witness :
  let st :=
    Demo.state_of (Demo.remote_with [] [] [] []) (Demo.resource "" [] []) in
  ParseInt (rd_id (data st)) = None
  ∧ resourceLinodeLinodeRead Demo.client st =
      (Err (ErrorfBecause "Failed to parse %s as int because %s"
              (ParseError EmptyString)), st).
Proof.
  intros st. split; [reflexivity|].
  destruct (X2_unparsable_id Demo.client st 0 eq_refl) as (Hread & _ & _).
  exact Hread.
Defined.

(** ** Updating, again *)

Section Updating.

Context {R : Type}.
Variable client : Client R.

Lemma update_never_creates fuel (st : State R) :
  wp (resourceLinodeLinodeUpdate client fuel) st (λ _ st',
    extends
      (among [LinodeList; LinodeUpdate; AvailLinodePlans; DiskList;
              LinodeResize; JobList; Sleep; DiskResize; LinodeBoot;
              ConfigList; ConfigUpdate; IpAddPrivate; LinodeReboot; IpList;
              AvailDataCenters; AvailKernels])
      (world st) (world st')).
Proof.
  unfold resourceLinodeLinodeUpdate. wp_pruning; solve_extends_vm.
Qed.

Lemma update_settings_kept fuel (st : State R) :
  has_change (data st) "name" = false →
  has_change (data st) "group" = false →
  wp (resourceLinodeLinodeUpdate client fuel) st (λ _ st',
    extends
      (among [LinodeList; AvailLinodePlans; DiskList; LinodeResize; JobList;
              Sleep; DiskResize; LinodeBoot; ConfigList; ConfigUpdate;
              IpAddPrivate; LinodeReboot; IpList; AvailDataCenters;
              AvailKernels])
      (world st) (world st')).
Proof.
  intros Hname Hgroup. unfold resourceLinodeLinodeUpdate.
  wp_pruning; solve_extends_vm.
Qed.

Lemma update_size_kept fuel (st : State R) :
  has_change (data st) "size" = false →
  wp (resourceLinodeLinodeUpdate client fuel) st (λ _ st',
    extends
      (among [LinodeList; LinodeUpdate; ConfigList; ConfigUpdate;
              IpAddPrivate; LinodeReboot; JobList; Sleep; IpList;
              AvailDataCenters; AvailLinodePlans; DiskList; AvailKernels])
      (world st) (world st')).
Proof.
  intros Hsize. unfold resourceLinodeLinodeUpdate.
  wp_pruning; solve_extends_vm.
Qed.

Lemma update_config_kept fuel (st : State R) :
  has_change (data st) "helper_distro" = false →
  has_change (data st) "manage_private_ip_automatically" = false →
  wp (resourceLinodeLinodeUpdate client fuel) st (λ _ st',
    extends
      (among [LinodeList; LinodeUpdate; AvailLinodePlans; DiskList;
              LinodeResize; JobList; Sleep; DiskResize; LinodeBoot;
              ConfigList; IpAddPrivate; LinodeReboot; IpList;
              AvailDataCenters; AvailKernels])
      (world st) (world st')).
Proof.
  intros Hdistro Hmanage.
  unfold resourceLinodeLinodeUpdate, changeLinodeConfig.
  wp_pruning; solve_extends_vm.
Qed.

Lemma update_network_kept fuel (st : State R) :
  has_change (data st) "private_networking" = false →
  wp (resourceLinodeLinodeUpdate client fuel) st (λ _ st',
    extends
      (among [LinodeList; LinodeUpdate; AvailLinodePlans; DiskList;
              LinodeResize; JobList; Sleep; DiskResize; LinodeBoot;
              ConfigList; ConfigUpdate; IpList; AvailDataCenters;
              AvailKernels])
      (world st) (world st')).
Proof.
  intros Hnet. unfold resourceLinodeLinodeUpdate.
  wp_pruning; solve_extends_vm.
Qed.

Lemma update_nothing_changed fuel (st : State R) :
  has_change (data st) "name" = false →
  has_change (data st) "group" = false →
  has_change (data st) "size" = false →
  has_change (data st) "helper_distro" = false →
  has_change (data st) "manage_private_ip_automatically" = false →
  has_change (data st) "private_networking" = false →
  wp (resourceLinodeLinodeUpdate client fuel) st (λ _ st',
    extends (among read_calls) (world st) (world st')).
Proof.
  intros Hname Hgroup Hsize Hdistro Hmanage Hnet.
  unfold resourceLinodeLinodeUpdate, changeLinodeConfig.
  wp_pruning; solve_extends_vm.
Qed.

(** X7. An update touches only what has changed.  It never creates or
    deletes an instance, a disk or a boot configuration.  It calls the
    update of the instance only when the name or the group has changed in
    [d]; the resize of the instance, the resize of a disk and the boot only
    when the size has; the update of the boot configuration only when one of
    the two helper flags has; the allocation of a private address and the
    reboot only when the private-networking flag has.  An update in which
    none of these six has changed makes listing and catalog calls only. *)
Theorem X7_update_scope fuel (st : State R) :
  ∃ evs,
    trace (world (resourceLinodeLinodeUpdate client fuel st).2)
      = trace (world st) ++ evs
    ∧ Forall (λ ev, api_of ev ∉ [LinodeCreate; LinodeDelete; DiskCreate;
                                 DiskCreateFromDistribution;
                                 DiskCreateFromImage; ConfigCreate]) evs
    ∧ (has_change (data st) "name" = false →
       has_change (data st) "group" = false →
       Forall (λ ev, api_of ev ∉ [LinodeUpdate]) evs)
    ∧ (has_change (data st) "size" = false →
       Forall (λ ev, api_of ev ∉ [LinodeResize; DiskResize; LinodeBoot]) evs)
    ∧ (has_change (data st) "helper_distro" = false →
       has_change (data st) "manage_private_ip_automatically" = false →
       Forall (λ ev, api_of ev ∉ [ConfigUpdate]) evs)
    ∧ (has_change (data st) "private_networking" = false →
       Forall (λ ev, api_of ev ∉ [IpAddPrivate; LinodeReboot]) evs)
    ∧ (has_change (data st) "name" = false →
       has_change (data st) "group" = false →
       has_change (data st) "size" = false →
       has_change (data st) "helper_distro" = false →
       has_change (data st) "manage_private_ip_automatically" = false →
       has_change (data st) "private_networking" = false →
       Forall (among read_calls) evs).
Proof.
  destruct (update_never_creates fuel st) as (evs & Ht & Hf).
  exists evs. split; [exact Ht|].
  assert (∀ l, extends (among l) (world st)
                 (world (resourceLinodeLinodeUpdate client fuel st).2) →
               Forall (among l) evs) as Hsame.
  { intros l (evs' & Ht' & Hf'). rewrite Ht in Ht'.
    by apply app_inv_head in Ht' as ->. }
  split; [by eapply among_avoids; [|exact Hf]|].
  split; [|split; [|split; [|split]]].
  - intros Hname Hgroup.
    eapply among_avoids;
      [|exact (Hsame _ (update_settings_kept fuel st Hname Hgroup))].
    reflexivity.
  - intros Hsize.
    eapply among_avoids;
      [|exact (Hsame _ (update_size_kept fuel st Hsize))].
    reflexivity.
  - intros Hdistro Hmanage.
    eapply among_avoids;
      [|exact (Hsame _ (update_config_kept fuel st Hdistro Hmanage))].
    reflexivity.
  - intros Hnet.
    eapply among_avoids;
      [|exact (Hsame _ (update_network_kept fuel st Hnet))].
    reflexivity.
  - intros Hname Hgroup Hsize Hdistro Hmanage Hnet.
    exact (Hsame _ (update_nothing_changed fuel st Hname Hgroup Hsize Hdistro
                      Hmanage Hnet)).
Qed.

(** X8. An update turns the partial mode of [d] on and never turns it off:
    at the end of every run of the update, whatever its result, the partial
    mode is on. *)
Theorem X8_update_partial fuel (st : State R) :
  partial (data (resourceLinodeLinodeUpdate client fuel st).2) = true.
Proof.
  change (wp (resourceLinodeLinodeUpdate client fuel) st (λ _ st',
    partial (data st') = true)).
  unfold resourceLinodeLinodeUpdate.
  wp_run_all; norm_state; congruence.
Qed.

(** X9. An update of a resource whose instance is gone (the listing answers
    without error, with no instance) ends in a run-time panic, an index out
    of range, right after the listing, where the read-back would clear the
    id. *)
Theorem X9_update_vanished fuel (st : State R) id resp r1 :
  ParseInt (rd_id (data st)) = Some id →
  Linode_List client id (remote (world st)) = (inr resp, r1) →
  Linodes resp = [] →
  resourceLinodeLinodeUpdate client fuel st =
    (Panic "index out of range",
     {| world := with_remote r1 [EvLinodeList id (inr resp)] (world st);
        data := rd_with_partial true (data st) |}).
Proof.
  intros Hid Hlist Hnone. apply wp_eq. unfold resourceLinodeLinodeUpdate.
  do 4 wp_step. rewrite Hid. do 3 wp_step. wp_answer Hlist. rewrite Hnone.
  by wp_step.
Qed.

End Updating.

(** X9 on a remote system that lists no instance. *)
Lemma X9_update_vanished_witness :
  let st :=
    Demo.state_of (Demo.remote_catalogs Demo.kernels1 Demo.datacenters1)
      (Demo.resource "1001" [] []) in
  (ParseInt (rd_id (data st)) = Some 1001
   ∧ Linode_List Demo.client 1001 (remote (world st))
     = (inr {| Errors := []; Linodes := [] |}, remote (world st)))
  ∧ (resourceLinodeLinodeUpdate Demo.client 1 st).1
    = Panic "index out of range".
Proof.
  intros st. split; [split; reflexivity|].
  by rewrite (X9_update_vanished Demo.client 1 st 1001
                {| Errors := []; Linodes := [] |} (remote (world st))
                eq_refl eq_refl eq_refl).
Defined.

(** ** Provisioning, again *)

Section Creating.

Context {R : Type}.
Variable client : Client R.

(** X5. A provisioning run keeps track of what it has created.  Once the
    creation of the instance has answered an id, the id of the resource is
    the decimal of that id at the end of the run, whatever fails later; it
    is empty only where the final read-back has cleared it.  A run in which
    no creation has answered an id ends in no success, leaves the id of the
    resource as it was, and has called nothing but the two catalogs of
    regions and plans and the creation itself: region and plan are resolved
    before anything is created. *)
Theorem X5_create_tracks_id fuel (st : State R) :
  ∃ evs,
    trace (world (resourceLinodeLinodeCreate client fuel st).2)
      = trace (world st) ++ evs
    ∧ (∀ dataCenterId planId paymentTerm create,
         In (EvLinodeCreate dataCenterId planId paymentTerm (inr create)) evs →
         rd_id (data (resourceLinodeLinodeCreate client fuel st).2) = Itoa create
         ∨ rd_id (data (resourceLinodeLinodeCreate client fuel st).2)
           = EmptyString)
    ∧ ((∀ dataCenterId planId paymentTerm create,
          ¬ In (EvLinodeCreate dataCenterId planId paymentTerm (inr create)) evs) →
       rd_id (data (resourceLinodeLinodeCreate client fuel st).2)
         = rd_id (data st)
       ∧ (resourceLinodeLinodeCreate client fuel st).1 ≠ Ok tt
       ∧ Forall (among [AvailDataCenters; AvailLinodePlans; LinodeCreate]) evs).
Proof.
  change (wp (resourceLinodeLinodeCreate client fuel) st (λ r st',
    ∃ evs,
      trace (world st') = trace (world st) ++ evs
      ∧ (∀ dataCenterId planId paymentTerm create,
           In (EvLinodeCreate dataCenterId planId paymentTerm (inr create)) evs →
           rd_id (data st') = Itoa create ∨ rd_id (data st') = EmptyString)
      ∧ ((∀ dataCenterId planId paymentTerm create,
            ¬ In (EvLinodeCreate dataCenterId planId paymentTerm (inr create))
                evs) →
         rd_id (data st') = rd_id (data st)
         ∧ r ≠ Ok tt
         ∧ Forall (among [AvailDataCenters; AvailLinodePlans; LinodeCreate])
             evs))).
  unfold resourceLinodeLinodeCreate.
  wp_run_all.
  all: open_extends; (eexists; split; [trace_eq|]).
  all: split;
    [ intros dc' plan' term' c' Hin; in_trace Hin;
      try discriminate Hin; try by_among Hin
    | intros Hnone ].
  all: try (injection Hin as <- <- <- <-; norm_state;
            repeat match goal with
              | H : _ ∨ _ |- _ => destruct H as [H|(H & _ & _)]
              end;
            first [left; congruence | right; congruence]).
  all: try (exfalso; eapply Hnone; in_segments).
  all: split; [reflexivity|]; (split; [done|]); forall_among_vm.
Qed.

(** X6. A provisioning run turns the partial mode of [d] on at its start,
    and off only after the boot call: a run that ends in success leaves it
    off, and a run that leaves it off has made the boot call. *)
Theorem X6_create_partial fuel (st : State R) :
  ∃ evs,
    trace (world (resourceLinodeLinodeCreate client fuel st).2)
      = trace (world st) ++ evs
    ∧ ((resourceLinodeLinodeCreate client fuel st).1 = Ok tt →
       partial (data (resourceLinodeLinodeCreate client fuel st).2) = false)
    ∧ (partial (data (resourceLinodeLinodeCreate client fuel st).2) = false →
       ∃ linodeId configId a, In (EvLinodeBoot linodeId configId a) evs).
Proof.
  change (wp (resourceLinodeLinodeCreate client fuel) st (λ r st',
    ∃ evs,
      trace (world st') = trace (world st) ++ evs
      ∧ (r = Ok tt → partial (data st') = false)
      ∧ (partial (data st') = false →
         ∃ linodeId configId a, In (EvLinodeBoot linodeId configId a) evs))).
  unfold resourceLinodeLinodeCreate.
  wp_run_all.
  all: open_extends; (eexists; split; [trace_eq|]).
  all: split; [intros Hok; try discriminate Hok; norm_state; congruence|].
  all: intros Hp;
    first [ exfalso; congruence | eexists _, _, _; in_segments ].
Qed.

Lemma deployImage_disks fuel (linode : Linode) imageName diskSize key password
    (w : World R) :
  wp (deployImage client fuel linode imageName diskSize key password) w
    (λ _ w',
      ∃ evs,
        trace w' = trace w ++ evs
        ∧ Forall
            (among [AvailDistributions; ImageList; DiskCreateFromDistribution;
                    DiskCreateFromImage; JobList; Sleep]) evs
        ∧ ∀ imageId linodeId label size args a,
            In (EvDiskCreateFromDistribution imageId linodeId label size args a)
               evs
            ∨ In (EvDiskCreateFromImage imageId linodeId label size args a) evs →
            linodeId = LinodeId linode ∧ size = diskSize).
Proof.
  unfold deployImage.
  wp_auto; open_extends; (eexists; split; [trace_eq|]);
    (split; [forall_among_vm|]);
    intros imageId' linodeId' label' size' args' a' [Hin|Hin]; in_trace Hin;
    try discriminate Hin; try by_among Hin.
  all: by injection Hin as <- <- <- <- <- <-.
Qed.

(** The callee [deployImage], with the disks it creates. *)
Ltac wp_deploy :=
  lazymatch goal with
  | |- wp (deployImage _ _ _ _ _ _ _) _ _ =>
      let r := fresh "r" in
      let w := fresh "w" in
      let evs := fresh "evs" in
      let Ht := fresh "Ht" in
      let Hf := fresh "Hf" in
      let Hd := fresh "Hdeploy" in
      eapply wp_mono; [apply deployImage_disks|];
      norm_state; intros r w (evs & Ht & Hf & Hd); try destruct r;
      cbv beta iota
  end.

(** X25. The disks of a provisioning run.  A raw disk is created only as
    the swap disk: type and label "swap", the requested swap size, which is
    then greater than 0, no argument, on the instance that the run has
    created.  The disk of the image is created on the instance as the
    remote system listed it, with the size that the swap size leaves of the
    storage of that instance (in 64-bit arithmetic), whatever the sign of
    the swap size. *)
Theorem X25_create_disks fuel (st : State R) :
  ∃ evs,
    trace (world (resourceLinodeLinodeCreate client fuel st).2)
      = trace (world st) ++ evs
    ∧ (∀ linodeId diskType label size args a,
         In (EvDiskCreate linodeId diskType label size args a) evs →
         diskType = "swap" ∧ label = "swap"
         ∧ size = get_int (data st) "swap_size" ∧ 0 < size ∧ args = ∅
         ∧ ∃ dataCenterId planId paymentTerm,
             In (EvLinodeCreate dataCenterId planId paymentTerm (inr linodeId))
                evs)
    ∧ (∀ imageId linodeId label size args a,
         In (EvDiskCreateFromDistribution imageId linodeId label size args a)
            evs
         ∨ In (EvDiskCreateFromImage imageId linodeId label size args a) evs →
         ∃ id resp linode,
           In (EvLinodeList id (inr resp)) evs
           ∧ Linodes resp = [linode]
           ∧ linodeId = LinodeId linode
           ∧ size = sub64 (TotalHD linode) (get_int (data st) "swap_size")).
Proof.
  change (wp (resourceLinodeLinodeCreate client fuel) st (λ _ st',
    ∃ evs,
      trace (world st') = trace (world st) ++ evs
      ∧ (∀ linodeId diskType label size args a,
           In (EvDiskCreate linodeId diskType label size args a) evs →
           diskType = "swap" ∧ label = "swap"
           ∧ size = get_int (data st) "swap_size" ∧ 0 < size ∧ args = ∅
           ∧ ∃ dataCenterId planId paymentTerm,
               In (EvLinodeCreate dataCenterId planId paymentTerm
                     (inr linodeId)) evs)
      ∧ (∀ imageId linodeId label size args a,
           In (EvDiskCreateFromDistribution imageId linodeId label size args a)
              evs
           ∨ In (EvDiskCreateFromImage imageId linodeId label size args a) evs →
           ∃ id resp linode,
             In (EvLinodeList id (inr resp)) evs
             ∧ Linodes resp = [linode]
             ∧ linodeId = LinodeId linode
             ∧ size = sub64 (TotalHD linode) (get_int (data st) "swap_size")))).
  unfold resourceLinodeLinodeCreate.
  repeat first [wp_known | wp_step | wp_deploy | wp_callee | wp_calleeS].
  all: open_extends; (eexists; split; [trace_eq|]).
  all: split;
    [ intros lid' ty' label' size' args' a' Hin
    | intros img' lid' label' size' args' a' [Hin|Hin] ];
    in_trace Hin; try discriminate Hin; try by_among Hin.
  all: try (injection Hin as <- <- <- <- <- <-;
            repeat apply conj; try reflexivity;
            [ by apply Z.gtb_lt | eexists _, _, _; in_segments ]).
  all: match goal with
       | Hd : ∀ imageId linodeId label size args a, _ ∨ _ → _ |- _ =>
           first [ destruct (Hd _ _ _ _ _ _ (or_introl Hin)) as [-> ->]
                 | destruct (Hd _ _ _ _ _ _ (or_intror Hin)) as [-> ->] ]
       end.
  all: eexists _, _, _; (split; [in_segments|]);
         (split; [eassumption|]); (split; [reflexivity|]); f_equal;
         unfold get_int; norm_state; rewrite ?lookup_insert_ne by done;
         by rewrite ?Hattrs.
Qed.

End Creating.
